(** * easy_to_remember: the Alice skill of [main.py]

    A shallow embedding of [main.py] (the persistence helpers, the text
    normaliser, the similarity scorer, the response builder and [handler])
    and the properties of its specification that were checked against it.

    Conventions of the embedding:
    - a Python [str] is a list of Unicode code points ([pystr]);
    - the Unicode character database used by [str.lower], [str.isalnum],
      [str.isspace] and [str.split] is an interface ([UnicodeData]); facts
      about it that a proof needs are explicit hypotheses ([unicode_laws]);
    - the MySQL table [texts] is a finite map from [session_id] to
      [original_text]; what the server and the network do on their own
      (refused connections, rejected statements) is a schedule of faults
      carried by the world;
    - exceptions are values: a computation returns [inl e] when it raises. *)

From Stdlib Require Import ZArith NArith List Lia Bool String Ascii.
From Stdlib Require Import PrimFloat Uint63 SpecFloat FloatOps.
From stdpp Require Import base option list sorting gmap.

Local Open Scope N_scope.

(* ===================================================================== *)
(** ** Python strings *)
(* ===================================================================== *)

Definition codepoint := N.
Abbreviation pystr := (list N).

(** Source literals are UTF-8 text; a [str] literal denotes the sequence of
    its code points. *)
Fixpoint utf8_go (need : nat) (acc : N) (bs : list N) : pystr :=
  match bs with
  | [] => []
  | b :: bs' =>
      match need with
      | O =>
          if b <? 128 then b :: utf8_go 0 0 bs'
          else if b <? 224 then utf8_go 1 (N.land b 31) bs'
          else if b <? 240 then utf8_go 2 (N.land b 15) bs'
          else utf8_go 3 (N.land b 7) bs'
      | S O => (acc * 64 + N.land b 63) :: utf8_go 0 0 bs'
      | S n => utf8_go n (acc * 64 + N.land b 63) bs'
      end
  end.

Definition lit (s : string) : pystr :=
  utf8_go 0 0 (List.map N_of_ascii (list_ascii_of_string s)).

Definition NL : pystr := [10].

(** [str(n)] for an [int]. *)
Fixpoint digits_of (fuel : nat) (n : N) (acc : pystr) : pystr :=
  match fuel with
  | O => acc
  | S fuel' =>
      let acc' := (48 + n mod 10) :: acc in
      if n <? 10 then acc' else digits_of fuel' (n / 10) acc'
  end.

Definition str_of_int (z : Z) : pystr :=
  match z with
  | Z0 => [48]
  | Zpos p => digits_of (S (N.to_nat (N.log2 (Npos p)))) (Npos p) []
  | Zneg p => 45 :: digits_of (S (N.to_nat (N.log2 (Npos p)))) (Npos p) []
  end.

(* ===================================================================== *)
(** ** The Unicode character database *)
(* ===================================================================== *)

(** What CPython's [unicodeobject.c] asks of the database for the methods
    [main.py] calls.  [to_lower_full] is [_PyUnicode_ToLowerFull]. *)
Class UnicodeData := {
  to_lower_full : codepoint -> list codepoint;
  is_cased : codepoint -> bool;
  is_case_ignorable : codepoint -> bool;
  isalnum : codepoint -> bool;
  isspace : codepoint -> bool
}.

Definition CAPITAL_SIGMA : codepoint := 931.   (* U+03A3 *)
Definition FINAL_SIGMA : codepoint := 962.     (* U+03C2 *)
Definition SMALL_SIGMA : codepoint := 963.     (* U+03C3 *)
Definition SPACE : codepoint := 32.

(** The facts about the database that normalisation relies on: a lower-cased
    character is not lower-cased any further, and U+0020 is a caseless white
    space. *)
Record unicode_laws (U : UnicodeData) : Prop := {
  lower_stable : forall c d, In d (to_lower_full c) ->
                             to_lower_full d = [d] /\ d <> CAPITAL_SIGMA;
  sigma_stable : to_lower_full SMALL_SIGMA = [SMALL_SIGMA] /\
                 to_lower_full FINAL_SIGMA = [FINAL_SIGMA];
  space_lower : to_lower_full SPACE = [SPACE];
  space_is_space : isspace SPACE = true
}.

Section Text.
Context {U : UnicodeData}.

(** [handle_capital_sigma]: U+03A3 is in the Final_Sigma context when a cased
    character precedes it (skipping case-ignorable ones) and none follows. *)
Fixpoint first_not_ignorable (s : pystr) : option codepoint :=
  match s with
  | [] => None
  | c :: s' => if is_case_ignorable c then first_not_ignorable s' else Some c
  end.

Definition handle_capital_sigma (before_rev after : pystr) : codepoint :=
  let final_sigma :=
    match first_not_ignorable before_rev with
    | None => false
    | Some c =>
        is_cased c &&
        match first_not_ignorable after with
        | None => true
        | Some c' => negb (is_cased c')
        end
    end in
  if final_sigma then FINAL_SIGMA else SMALL_SIGMA.

Definition lower_ucs4 (before_rev : pystr) (c : codepoint) (after : pystr)
  : list codepoint :=
  if c =? CAPITAL_SIGMA then [handle_capital_sigma before_rev after]
  else to_lower_full c.

(** [str.lower()]: [before_rev] is the part of the string already passed,
    nearest character first. *)
Fixpoint lower_from (before_rev s : pystr) : pystr :=
  match s with
  | [] => []
  | c :: s' => lower_ucs4 before_rev c s' ++ lower_from (c :: before_rev) s'
  end.

Definition lower (s : pystr) : pystr := lower_from [] s.

(** [str.split()] with no separator: maximal runs of non-space characters. *)
Fixpoint split_from (word s : pystr) : list pystr :=
  match s with
  | [] => match word with [] => [] | _ => [word] end
  | c :: s' =>
      if isspace c
      then match word with
           | [] => split_from [] s'
           | _ => word :: split_from [] s'
           end
      else split_from (word ++ [c]) s'
  end.

Definition split (s : pystr) : list pystr := split_from [] s.

(** [sep.join(words)]. *)
Fixpoint join (sep : pystr) (words : list pystr) : pystr :=
  match words with
  | [] => []
  | [w] => w
  | w :: ws => w ++ sep ++ join sep ws
  end.

(** The condition of the generator of line 126. *)
Definition kept (e : codepoint) : bool := isalnum e || isspace e.

(** [clean_text], main.py line 126. *)
Definition clean_text (text : pystr) : pystr :=
  join [SPACE] (split (List.filter kept (lower text))).

(** A character [str.lower] leaves alone, wherever it stands. *)
Definition settled (c : codepoint) : Prop :=
  to_lower_full c = [c] /\ c <> CAPITAL_SIGMA.

(** A word of [split]: not empty and free of white space. *)
Definition word_of (P : codepoint -> Prop) (w : pystr) : Prop :=
  w <> [] /\ Forall (fun c => P c /\ isspace c = false) w.

End Text.

(* ===================================================================== *)
(** ** The similarity scorer *)
(* ===================================================================== *)

(** Modelled from the spec: [fuzz.ratio] of the [fuzzywuzzy] package and the
    [difflib.SequenceMatcher] it runs are imported by [main.py] and are not
    part of its source.  The spec describes the score as [2*M / T] scaled to
    an integer percentage, with [M] the number of matching characters found by
    a longest-common-substring-based recursive matching procedure and [T] the
    combined length, and fixes the score of two empty strings at 100; the
    definitions below follow that description, in the shape of the reference
    library (equal arguments score 100, an empty argument scores 0 otherwise,
    popular characters of a long second string are left out of the index). *)
Module Difflib.

Local Open Scope Z_scope.

(** A matching block [(i, j, k)]: [a[i:i+k] == b[j:j+k]]. *)
Definition Match : Type := Z * Z * Z.
Definition m_size (m : Match) : Z := snd m.

Definition at_index (s : pystr) (i : Z) : option codepoint :=
  if i <? 0 then None else s !! Z.to_nat i.

Definition same_elt (a b : pystr) (i j : Z) : bool :=
  match at_index a i, at_index b j with
  | Some x, Some y => N.eqb x y
  | _, _ => false
  end.

(** [__chain_b]: for each element of [b] the increasing list of its
    positions; with [autojunk], an element filling more than 1% (plus one)
    of a [b] of 200 elements or more is dropped from the index. *)
Fixpoint index_elts (j : Z) (b : pystr) (b2j : gmap N (list Z))
  : gmap N (list Z) :=
  match b with
  | [] => b2j
  | elt :: b' =>
      index_elts (j + 1) b' (<[elt := default [] (b2j !! elt) ++ [j]]> b2j)
  end.

Definition chain_b (b : pystr) : gmap N (list Z) :=
  let b2j := index_elts 0 b ∅ in
  let n := Z.of_nat (length b) in
  if 200 <=? n then
    let ntest := n / 100 + 1 in
    filter (fun kv => Z.of_nat (length (snd kv)) <= ntest) b2j
  else b2j.

(** No junk predicate is given ([isjunk] is [None]). *)
Definition isbjunk (c : codepoint) : bool := false.

Section Matcher.
Variables a b : pystr.
Let b2j := chain_b b.

(** The inner loop of [find_longest_match]: [for j in b2j.get(a[i], [])]. *)
Fixpoint scan_row (i blo bhi : Z) (j2len : gmap Z Z) (js : list Z)
    (newj2len : gmap Z Z) (best : Match) : gmap Z Z * Match :=
  match js with
  | [] => (newj2len, best)
  | j :: js' =>
      if j <? blo then scan_row i blo bhi j2len js' newj2len best
      else if bhi <=? j then (newj2len, best)
      else
        let k := default 0 (j2len !! (j - 1)) + 1 in
        let best' := if m_size best <? k then (i - k + 1, j - k + 1, k)
                     else best in
        scan_row i blo bhi j2len js' (<[j := k]> newj2len) best'
  end.

(** The outer loop: [for i in range(alo, ahi)], [n] rows left. *)
Fixpoint scan_rows (n : nat) (i blo bhi : Z) (j2len : gmap Z Z)
    (best : Match) : Match :=
  match n with
  | O => best
  | S n' =>
      let js := match at_index a i with
                | Some ai => default [] (b2j !! ai)
                | None => []
                end in
      let '(newj2len, best') := scan_row i blo bhi j2len js ∅ best in
      scan_rows n' (i + 1) blo bhi newj2len best'
  end.

(** The [while] loops that extend the best block at its two ends, over
    elements whose junk status is [junk]. *)
Fixpoint extend_left (fuel : nat) (junk : bool) (alo blo : Z) (m : Match)
  : Match :=
  match fuel with
  | O => m
  | S fuel' =>
      let '(besti, bestj, bestsize) := m in
      if (alo <? besti) && (blo <? bestj)
         && match at_index b (bestj - 1) with
            | Some c => Bool.eqb (isbjunk c) junk
            | None => false
            end
         && same_elt a b (besti - 1) (bestj - 1)
      then extend_left fuel' junk alo blo (besti - 1, bestj - 1, bestsize + 1)
      else m
  end.

Fixpoint extend_right (fuel : nat) (junk : bool) (ahi bhi : Z) (m : Match)
  : Match :=
  match fuel with
  | O => m
  | S fuel' =>
      let '(besti, bestj, bestsize) := m in
      if (besti + bestsize <? ahi) && (bestj + bestsize <? bhi)
         && match at_index b (bestj + bestsize) with
            | Some c => Bool.eqb (isbjunk c) junk
            | None => false
            end
         && same_elt a b (besti + bestsize) (bestj + bestsize)
      then extend_right fuel' junk ahi bhi (besti, bestj, bestsize + 1)
      else m
  end.

Definition room_left (alo : Z) (m : Match) : nat :=
  Z.to_nat (fst (fst m) - alo).
Definition room_right (ahi : Z) (m : Match) : nat :=
  Z.to_nat (ahi - (fst (fst m) + m_size m)).

Definition find_longest_match (alo ahi blo bhi : Z) : Match :=
  let m0 := scan_rows (Z.to_nat (ahi - alo)) alo blo bhi ∅ (alo, blo, 0) in
  let m1 := extend_left (room_left alo m0) false alo blo m0 in
  let m2 := extend_right (room_right ahi m1) false ahi bhi m1 in
  let m3 := extend_left (room_left alo m2) true alo blo m2 in
  extend_right (room_right ahi m3) true ahi bhi m3.

(** The work list of [get_matching_blocks]; the head of [queue] is the item
    [queue.pop()] takes.  [None] when [fuel] iterations were not enough. *)
Definition range4 : Type := Z * Z * Z * Z.

Fixpoint matching_loop (fuel : nat) (queue : list range4)
    (blocks : list Match) : option (list Match) :=
  match queue with
  | [] => Some blocks
  | (alo, ahi, blo, bhi) :: queue' =>
      match fuel with
      | O => None
      | S fuel' =>
          let '(i, j, k) := find_longest_match alo ahi blo bhi in
          if k =? 0 then matching_loop fuel' queue' blocks
          else
            let q1 := if (alo <? i) && (blo <? j)
                      then (alo, i, blo, j) :: queue' else queue' in
            let q2 := if (i + k <? ahi) && (j + k <? bhi)
                      then (i + k, ahi, j + k, bhi) :: q1 else q1 in
            matching_loop fuel' q2 (blocks ++ [(i, j, k)])
      end
  end.

Definition match_le (x y : Match) : Prop :=
  let '(i1, j1, k1) := x in
  let '(i2, j2, k2) := y in
  i1 < i2 \/ (i1 = i2 /\ (j1 < j2 \/ (j1 = j2 /\ k1 <= k2))).

#[local] Instance match_le_dec x y : Decision (match_le x y).
Proof. destruct x as [[? ?] ?], y as [[? ?] ?]; simpl; apply _. Defined.

(** Adjacent blocks of the sorted list are merged into one. *)
Fixpoint collapse (cur : Match) (blocks : list Match) : list Match :=
  match blocks with
  | [] => if m_size cur =? 0 then [] else [cur]
  | (i2, j2, k2) :: rest =>
      let '(i1, j1, k1) := cur in
      if (i1 + k1 =? i2) && (j1 + k1 =? j2)
      then collapse (i1, j1, k1 + k2) rest
      else (if k1 =? 0 then [] else [cur]) ++ collapse (i2, j2, k2) rest
  end.

Definition enough_fuel : nat := 2 * length a + 2.

Definition get_matching_blocks : option (list Match) :=
  let la := Z.of_nat (length a) in
  let lb := Z.of_nat (length b) in
  blocks ← matching_loop enough_fuel [(0, la, 0, lb)] [];
  Some (collapse (0, 0, 0) (merge_sort match_le blocks) ++ [(la, lb, 0)]).

(** [matches]: the sum of the sizes of the matching blocks. *)
Definition matches : Z :=
  match get_matching_blocks with
  | Some blocks => foldr (fun m acc => m_size m + acc) 0 blocks
  | None => 0
  end.

End Matcher.

(** [_calculate_ratio(matches, length)], in binary64 arithmetic. *)
Definition float_of_int (z : Z) : float := PrimFloat.of_uint63 (Uint63.of_Z z).

Definition calculate_ratio (matches length : Z) : float :=
  if length =? 0 then 1%float
  else ((2 * float_of_int matches) / float_of_int length)%float.

Definition ratio (a b : pystr) : float :=
  calculate_ratio (matches a b) (Z.of_nat (length a) + Z.of_nat (length b)).

(** [round(x)] of a float: the nearest integer, a tie going to the even one.
    (Python raises on an infinity or a NaN, which a quotient of two lengths
    is not.) *)
Definition round_half_even (m : positive) (e : Z) : Z :=
  if 0 <=? e then Zpos m * 2 ^ e
  else
    let d := 2 ^ (- e) in
    let q := Zpos m / d in
    let r := Zpos m mod d in
    if 2 * r <? d then q
    else if d <? 2 * r then q + 1
    else if Z.even q then q else q + 1.

Definition py_round (x : float) : Z :=
  match Prim2SF x with
  | S754_finite s m e => if s then - round_half_even m e
                         else round_half_even m e
  | _ => 0
  end.

(** [utils.intr]. *)
Definition intr (x : float) : Z := py_round x.

(** A block that lies inside [a[alo:hi]]. *)
Definition inside (alo hi : Z) (m : Match) : Prop :=
  alo <= fst (fst m) /\ fst (fst m) + m_size m <= hi /\ 0 <= m_size m.

(** Every run length recorded in [j2len] is between 0 and [n]. *)
Definition run_lengths_upto (n : Z) (j2len : gmap Z Z) : Prop :=
  forall j k, j2len !! j = Some k -> 0 <= k <= n.

(** The work left in the queue of [get_matching_blocks]. *)
Definition work (queue : list range4) : nat :=
  foldr (fun '(alo, ahi, _, _) n => (2 * Z.to_nat (ahi - alo) + 1 + n)%nat)
        0%nat queue.

(** A range of the queue is not reversed. *)
Definition proper (r : range4) : Prop :=
  let '(alo, ahi, _, _) := r in alo <= ahi.

End Difflib.

(** [fuzz.ratio(s1, s2)]. *)
Definition fuzz_ratio (s1 s2 : pystr) : Z :=
  if decide (s1 = s2) then 100%Z
  else if (Nat.eqb (length s1) 0 || Nat.eqb (length s2) 0)%bool then 0%Z
  else Difflib.intr (Difflib.float_of_int 100 * Difflib.ratio s1 s2)%float.

Section Scoring.
Context {U : UnicodeData}.

(** [calculate_similarity], main.py lines 129-144. *)
Definition calculate_similarity (original user_text : pystr) : Z :=
  let cleaned_original := clean_text original in
  let cleaned_user_text := clean_text user_text in
  fuzz_ratio cleaned_original cleaned_user_text.

End Scoring.

(* ===================================================================== *)
(** ** The world: the MySQL server and the log *)
(* ===================================================================== *)

Inductive db_error :=
| ConnectionFailed     (* [mysql.connector.connect] raised *)
| StatementRejected    (* [cursor.execute] or [commit] raised *)
| NoSuchTable.         (* the statement names a table that is not there *)

Inductive exn :=
| KeyError (key : string)
| UnboundLocalError (name : string)
| MySQLError (e : db_error).

(** What the server does with the next connection, beyond our control. *)
Inductive fault := NoFault | ConnectFault | ExecuteFault.

Inductive log_entry :=
| LogRequest (user_id session_id user_message : pystr)   (* line 196 *)
| LogConnectError (e : db_error)                         (* line 37 *)
| LogHandlerError (e : exn).                             (* line 235 *)

(** [texts]: the rows of the table, [None] before the table is created. *)
Record world := World {
  texts : option (gmap pystr pystr);
  faults : list fault;
  log : list log_entry
}.

Definition rows (w : world) : gmap pystr pystr := default ∅ (texts w).

(** The next [n] connections meet no fault. *)
Definition is_NoFault (f : fault) : bool :=
  match f with NoFault => true | _ => false end.

Definition fault_free (n : nat) (w : world) : bool :=
  forallb is_NoFault (firstn n (faults w)).

(** The world a request leaves after [n] statements went through: the
    table holds [t], [n] entries of the schedule are used, [entry] is
    logged. *)
Definition after_statements (n : nat) (t : gmap pystr pystr)
    (entry : log_entry) (w : world) : world :=
  World (Some t) (Nat.iter n (@List.tl fault) (faults w)) (log w ++ [entry]).

Definition Py (A : Type) : Type := world -> (exn + A) * world.

Definition raise {A} (e : exn) : Py A := fun w => (inl e, w).

#[export] Instance Py_ret : MRet Py := fun A x w => (inr x, w).
#[export] Instance Py_bind : MBind Py := fun A B k m w =>
  match m w with
  | (inl e, w') => (inl e, w')
  | (inr x, w') => k x w'
  end.

Definition logger (e : log_entry) : Py unit :=
  fun w => (inr tt, World (texts w) (faults w) (log w ++ [e])).

(** The four statements [main.py] sends. *)
Inductive sql :=
| CREATE_TABLE_IF_NOT_EXISTS
| INSERT_ON_DUPLICATE_KEY_UPDATE (session_id text text' : pystr)
| SELECT_original_text (session_id : pystr)
| DELETE_FROM_texts (session_id : pystr).

(** The server's answer: the row a [fetchone] would read, and the table
    after the statement. *)
Definition run_sql (q : sql) (t : option (gmap pystr pystr))
  : db_error + option pystr * option (gmap pystr pystr) :=
  match q, t with
  | CREATE_TABLE_IF_NOT_EXISTS, None => inr (None, Some ∅)
  | CREATE_TABLE_IF_NOT_EXISTS, Some m => inr (None, Some m)
  | _, None => inl NoSuchTable
  | INSERT_ON_DUPLICATE_KEY_UPDATE sid text text', Some m =>
      match m !! sid with
      | None => inr (None, Some (<[sid := text]> m))
      | Some _ => inr (None, Some (<[sid := text']> m))
      end
  | SELECT_original_text sid, Some m => inr (m !! sid, Some m)
  | DELETE_FROM_texts sid, Some m => inr (None, Some (delete sid m))
  end.

(** [get_mysql_connection], lines 18-38: a failure is logged and raised
    again. *)
Definition get_mysql_connection : Py unit :=
  fun w =>
    match faults w with
    | ConnectFault :: fs =>
        (inl (MySQLError ConnectionFailed),
         World (texts w) fs (log w ++ [LogConnectError ConnectionFailed]))
    | _ => (inr tt, w)
    end.

(** [cursor.execute(query, params)] and what follows it in [execute_query]:
    with [fetchone] the row is returned and nothing is committed; otherwise
    the statement is committed. *)
Definition cursor_execute (query : sql) (fetchone : bool)
  : Py (option pystr) :=
  fun w =>
    match faults w with
    | ExecuteFault :: fs =>
        (inl (MySQLError StatementRejected), World (texts w) fs (log w))
    | fs =>
        let fs' := List.tl fs in
        match run_sql query (texts w) with
        | inl e => (inl (MySQLError e), World (texts w) fs' (log w))
        | inr (row, t') =>
            if fetchone then (inr row, World (texts w) fs' (log w))
            else (inr None, World t' fs' (log w))
        end
    end.

(** [execute_query], lines 96-113. *)
Definition execute_query (query : sql) (fetchone : bool)
  : Py (option pystr) :=
  get_mysql_connection ;; cursor_execute query fetchone.

(** [ensure_table_exists], lines 41-53. *)
Definition ensure_table_exists : Py unit :=
  execute_query CREATE_TABLE_IF_NOT_EXISTS false ;; mret tt.

(** [save_original_text], lines 55-70. *)
Definition save_original_text (session_id text : pystr) : Py unit :=
  execute_query (INSERT_ON_DUPLICATE_KEY_UPDATE session_id text text) false ;;
  mret tt.

(** [get_original_text], lines 72-84: [result[0] if result else None]. *)
Definition get_original_text (session_id : pystr) : Py (option pystr) :=
  result ← execute_query (SELECT_original_text session_id) true;
  mret (match result with Some text => Some text | None => None end).

(** [delete_original_text], lines 86-94. *)
Definition delete_original_text (session_id : pystr) : Py unit :=
  execute_query (DELETE_FROM_texts session_id) false ;; mret tt.

(* ===================================================================== *)
(** ** The response builder *)
(* ===================================================================== *)

Record Button := { title : pystr; hide : bool }.

Record ResponseBody := {
  text : pystr;
  buttons : list Button;
  end_session : bool
}.

Record SessionEcho := {
  session_id : option pystr;
  user_id : option pystr;
  new : bool
}.

Record Response := {
  response : ResponseBody;
  session : SessionEcho;
  version : pystr
}.

(** [create_response], lines 147-172.  [buttons or []]: a missing or empty
    list gives the empty list. *)
Definition create_response (text : pystr) (buttons : option (list Button))
    (session_id user_id : option pystr) : Response :=
  {| response := {| text := text;
                    buttons := match buttons with
                               | Some (b :: bs) => b :: bs
                               | _ => []
                               end;
                    end_session := false |};
     session := {| session_id := session_id;
                   user_id := user_id;
                   new := true |};
     version := lit "1.0" |}.

(* ===================================================================== *)
(** ** The skill handler *)
(* ===================================================================== *)

(** The inbound event: a mapping in which any key may be missing; the values
    present have the types the transport declares. *)
Record EventRequest := { original_utterance : option pystr }.

Record EventSession := {
  ev_session_id : option pystr;
  ev_user_id : option pystr;
  ev_new : option bool
}.

Record Event := {
  ev_request : option EventRequest;
  ev_session : option EventSession
}.

(** [d[key]] raises [KeyError] on a missing key. *)
Definition subscript {A} (key : string) (v : option A) : exn + A :=
  match v with
  | Some x => inr x
  | None => inl (KeyError key)
  end.

Definition event_user_message (event : Event) : exn + pystr :=
  match subscript "request" (ev_request event) with
  | inl e => inl e
  | inr r => subscript "original_utterance" (original_utterance r)
  end.

Definition event_session_field {A} (key : string)
    (field : EventSession -> option A) (event : Event) : exn + A :=
  match subscript "session" (ev_session event) with
  | inl e => inl e
  | inr s => subscript key (field s)
  end.

Definition GREETING : pystr :=
  Eval vm_compute in
    lit "Здравствуйте, введите текст, который хотите выучить.".
Definition TEXT_DELETED : pystr :=
  Eval vm_compute in lit "Текст был удалён. Введите новый текст.".
Definition TEXT_SAVED : pystr :=
  Eval vm_compute in
    lit "Оригинальный текст сохранён. Теперь расскажите его, как вы запомнили.".
Definition APOLOGY : pystr :=
  Eval vm_compute in lit "Произошла ошибка. Попробуйте снова.".
Definition RESET_KEYWORD : pystr := Eval vm_compute in lit "сбросить".
Definition RESET_BUTTON : option (list Button) :=
  Eval vm_compute in Some [{| title := lit "Сбросить"; hide := true |}].

(** An event that carries all four fields. *)
Definition complete_event (user_message session_id user_id : pystr)
    (is_new : bool) : Event :=
  {| ev_request := Some {| original_utterance := Some user_message |};
     ev_session := Some {| ev_session_id := Some session_id;
                           ev_user_id := Some user_id;
                           ev_new := Some is_new |} |}.

(** The f-string of lines 226-230. *)
Definition score_text (similarity : Z) (original_text user_message : pystr)
  : pystr :=
  lit "Процент совпадения: " ++ str_of_int similarity ++ lit "%" ++ NL ++ NL
  ++ lit "Оригинал текста: " ++ original_text ++ NL ++ NL
  ++ lit "Ваш текст: " ++ user_message.

(** A response that reports a similarity score. *)
Definition is_score_response (r : Response) : Prop :=
  exists similarity original_text user_message,
    text (response r) = score_text similarity original_text user_message.

(** The fields every response shares. *)
Definition fixed_fields (r : Response) : Prop :=
  new (session r) = true /\ end_session (response r) = false /\
  version r = lit "1.0".

(** The local variables of [handler] that the [except] clause reads; [None]
    while the name is not bound. *)
Record frame := Frame {
  l_session_id : option pystr;
  l_user_id : option pystr
}.

Inductive outcome :=
| Returned (r : Response)
| Escaped (e : exn).

Section Handler.
Context {U : UnicodeData}.

(** Lines 196-232: the [try] block once the three fields are read. *)
Definition handler_body (event : Event) (user_message session_id user_id : pystr)
  : Py Response :=
  logger (LogRequest user_id session_id user_message) ;;
  ensure_table_exists ;;
  is_new ← (fun w => (event_session_field "new" ev_new event, w));
  if (is_new : bool) then
    mret (create_response GREETING RESET_BUTTON (Some session_id) (Some user_id))
  else if decide (lower user_message = RESET_KEYWORD) then
    delete_original_text session_id ;;
    mret (create_response TEXT_DELETED RESET_BUTTON
                          (Some session_id) (Some user_id))
  else
    original_text ← get_original_text session_id;
    match original_text with
    | None | Some [] =>
        save_original_text session_id user_message ;;
        mret (create_response TEXT_SAVED RESET_BUTTON
                              (Some session_id) (Some user_id))
    | Some original_text =>
        let similarity := calculate_similarity original_text user_message in
        let response_text := score_text similarity original_text user_message in
        mret (create_response response_text RESET_BUTTON
                              (Some session_id) (Some user_id))
    end.

(** Lines 191-232: the [try] block; the frame it leaves tells which names
    were bound when it ended. *)
Definition handler_try (event : Event) (w : world)
  : (exn + Response) * frame * world :=
  match event_user_message event with
  | inl e => (inl e, Frame None None, w)
  | inr user_message =>
      match event_session_field "session_id" ev_session_id event with
      | inl e => (inl e, Frame None None, w)
      | inr session_id =>
          match event_session_field "user_id" ev_user_id event with
          | inl e => (inl e, Frame (Some session_id) None, w)
          | inr user_id =>
              let '(r, w') :=
                handler_body event user_message session_id user_id w in
              (r, Frame (Some session_id) (Some user_id), w')
          end
      end
  end.

(** Lines 234-236: the [except Exception] clause.  Reading an unbound local
    raises, and nothing catches that. *)
Definition handler_except (e : exn) (fr : frame) (w : world)
  : outcome * world :=
  let w' := snd (logger (LogHandlerError e) w) in
  match l_session_id fr, l_user_id fr with
  | None, _ => (Escaped (UnboundLocalError "session_id"), w')
  | Some _, None => (Escaped (UnboundLocalError "user_id"), w')
  | Some session_id, Some user_id =>
      (Returned (create_response APOLOGY RESET_BUTTON
                                 (Some session_id) (Some user_id)), w')
  end.

(** [handler], lines 174-236. *)
Definition handler (event : Event) (context : unit) (w : world)
  : outcome * world :=
  match handler_try event w with
  | (inr r, _, w') => (Returned r, w')
  | (inl e, fr, w') => handler_except e fr w'
  end.

End Handler.

(* ===================================================================== *)
(** ** A concrete database fragment *)
(* ===================================================================== *)

(** The rows of the Unicode character database for Basic Latin, the white
    space of Latin-1, the Cyrillic letters U+0400-U+045F and the Greek
    sigmas.  Any other character is taken as caseless and neither
    alphanumeric nor white space; the closed examples below stay inside the
    fragment. *)
Module BasicUnicode.

Definition in_range (lo hi c : N) : bool := (lo <=? c) && (c <=? hi).

Definition to_lower_full (c : codepoint) : list codepoint :=
  if in_range 65 90 c then [c + 32]              (* A-Z *)
  else if in_range 1024 1039 c then [c + 80]     (* U+0400-U+040F *)
  else if in_range 1040 1071 c then [c + 32]     (* U+0410-U+042F *)
  else if c =? CAPITAL_SIGMA then [SMALL_SIGMA]
  else [c].

Definition is_letter (c : codepoint) : bool :=
  in_range 65 90 c || in_range 97 122 c || in_range 1024 1119 c
  || in_range 931 931 c || in_range 962 963 c.

Definition is_cased (c : codepoint) : bool := is_letter c.

Definition is_case_ignorable (c : codepoint) : bool :=
  (c =? 39) || (c =? 46) || (c =? 58) || (c =? 94) || (c =? 96).

Definition isalnum (c : codepoint) : bool :=
  in_range 48 57 c || is_letter c.

Definition isspace (c : codepoint) : bool :=
  in_range 9 13 c || in_range 28 32 c || (c =? 133) || (c =? 160).

#[export] Instance data : UnicodeData :=
  Build_UnicodeData to_lower_full is_cased is_case_ignorable isalnum isspace.

End BasicUnicode.

(* ===================================================================== *)
(** ** Concrete sessions *)
(* ===================================================================== *)

Module Examples.

Definition sid : pystr := Eval vm_compute in lit "session-1".
Definition uid : pystr := Eval vm_compute in lit "user-1".

(** A server with the table, one row for [sid], and no fault ahead. *)
Definition store_with (original_text : pystr) : world :=
  World (Some (<[sid := original_text]> ∅)) [] [].

Definition empty_store : world := World (Some ∅) [] [].

Definition abc : pystr := Eval vm_compute in lit "abc".
Definition reset_with_stop : pystr := Eval vm_compute in lit "сбросить.".
Definition reset_button_label : pystr := Eval vm_compute in lit "Сбросить".
Definition hello : pystr := Eval vm_compute in lit "  Hello,   World!  ".
Definition tide : pystr := Eval vm_compute in lit "tide".
Definition diet : pystr := Eval vm_compute in lit "diet".

End Examples.

(* ===================================================================== *)
(** ** Properties of the persistence store *)
(* ===================================================================== *)

Lemma fault_free_S n w :
  fault_free (S n) w = true ->
  (faults w = [] \/ exists fs, faults w = NoFault :: fs) /\
  fault_free n (World (texts w) (List.tl (faults w)) (log w)) = true.
Proof.
  unfold fault_free. destruct w as [t fs l]; simpl.
  destruct fs as [|f fs]; simpl.
  - intros _. split; [now left|]. now destruct n.
  - intros H. apply andb_prop in H as [Hf Hfs].
    destruct f; try discriminate. split; [right; eauto | exact Hfs].
Qed.

Lemma fault_free_1 n w :
  fault_free (S n) w = true -> fault_free 1 w = true.
Proof.
  intros H. apply fault_free_S in H as [[H | [fs H]] _];
    unfold fault_free; rewrite H; reflexivity.
Qed.

(** Without a fault, [execute_query] is the statement itself. *)
Lemma execute_query_no_fault query fetchone w :
  fault_free 1 w = true ->
  execute_query query fetchone w =
    let w' := World (texts w) (List.tl (faults w)) (log w) in
    match run_sql query (texts w) with
    | inl e => (inl (MySQLError e), w')
    | inr (row, t') =>
        if fetchone then (inr row, w')
        else (inr None, World t' (List.tl (faults w)) (log w))
    end.
Proof.
  intros H. apply fault_free_S in H as [[H | [fs H]] _];
    destruct w as [t fs' l]; simpl in *; subst;
    unfold execute_query, mbind, Py_bind, get_mysql_connection,
      cursor_execute; simpl; reflexivity.
Qed.


Lemma save_original_text_no_fault sid text w m :
  texts w = Some m -> fault_free 1 w = true ->
  save_original_text sid text w =
    (inr tt, World (Some (<[sid := text]> m)) (List.tl (faults w)) (log w)).
Proof.
  intros Ht Hf. unfold save_original_text, mbind, Py_bind.
  rewrite (execute_query_no_fault _ _ _ Hf), Ht. simpl.
  destruct (m !! sid); reflexivity.
Qed.

Lemma get_original_text_no_fault sid w m :
  texts w = Some m -> fault_free 1 w = true ->
  get_original_text sid w =
    (inr (m !! sid), World (Some m) (List.tl (faults w)) (log w)).
Proof.
  intros Ht Hf. unfold get_original_text, mbind, Py_bind.
  rewrite (execute_query_no_fault _ _ _ Hf), Ht. simpl.
  destruct (m !! sid); reflexivity.
Qed.

Lemma delete_original_text_no_fault sid w m :
  texts w = Some m -> fault_free 1 w = true ->
  delete_original_text sid w =
    (inr tt, World (Some (delete sid m)) (List.tl (faults w)) (log w)).
Proof.
  intros Ht Hf. unfold delete_original_text, mbind, Py_bind.
  rewrite (execute_query_no_fault _ _ _ Hf), Ht. reflexivity.
Qed.

Lemma ensure_table_exists_no_fault w :
  fault_free 1 w = true ->
  ensure_table_exists w =
    (inr tt, World (Some (rows w)) (List.tl (faults w)) (log w)).
Proof.
  intros Hf. unfold ensure_table_exists, mbind, Py_bind.
  rewrite (execute_query_no_fault _ _ _ Hf). unfold rows.
  destruct (texts w); reflexivity.
Qed.

(** What [get_original_text] returns is the text of the session's row. *)
Lemma get_original_text_reads sid w o w' :
  get_original_text sid w = (inr o, w') -> o = rows w !! sid.
Proof.
  destruct w as [t fs l].
  unfold get_original_text, execute_query, mbind, Py_bind, mret, Py_ret,
    get_mysql_connection, cursor_execute, rows.
  destruct fs as [|[] fs]; simpl; try discriminate;
    destruct t as [m|]; simpl; try discriminate;
    destruct (m !! sid); now intros [= <- <-].
Qed.

(** Whatever happens, [ensure_table_exists] touches no row. *)
Lemma ensure_table_exists_rows w :
  rows (snd (ensure_table_exists w)) = rows w.
Proof.
  destruct w as [t fs l].
  unfold ensure_table_exists, execute_query, mbind, Py_bind,
    get_mysql_connection, cursor_execute, rows.
  destruct fs as [|[] fs]; simpl; try reflexivity; destruct t; reflexivity.
Qed.

(** C8.  Upsert: on a server that has the table and meets no fault, a second
    [save_original_text] for the same session replaces the text of the first,
    and [get_original_text] then returns the second text. *)
Theorem save_twice_then_load w sid t1 t2 :
  is_Some (texts w) -> fault_free 3 w = true ->
  let r1 := save_original_text sid t1 w in
  let r2 := save_original_text sid t2 (snd r1) in
  fst r1 = inr tt /\ fst r2 = inr tt /\
  fst (get_original_text sid (snd r2)) = inr (Some t2).
Proof.
  intros [m Hm] H3.
  pose proof (fault_free_1 _ _ H3) as F1.
  apply fault_free_S in H3 as [_ H2].
  pose proof (fault_free_1 _ _ H2) as F2.
  apply fault_free_S in H2 as [_ H1]. simpl in H1.
  cbv zeta.
  rewrite (save_original_text_no_fault sid t1 w m Hm F1). simpl.
  erewrite save_original_text_no_fault; [|reflexivity|exact F2]. simpl.
  erewrite get_original_text_no_fault; [|reflexivity|exact H1]. simpl.
  repeat split. f_equal.
  rewrite insert_insert_eq. now rewrite lookup_insert_eq.
Qed.

(* ===================================================================== *)
(** ** Properties of the text normaliser *)
(* ===================================================================== *)

Section Normalizer.
Context {U : UnicodeData}.
Hypothesis laws : unicode_laws U.

Lemma settled_sigma : settled SMALL_SIGMA /\ settled FINAL_SIGMA.
Proof.
  destruct (sigma_stable U laws) as [H1 H2].
  split; (split; [assumption | discriminate]).
Qed.

Lemma settled_space : settled SPACE.
Proof. split; [apply (space_lower U laws) | discriminate]. Qed.

Lemma lower_ucs4_settled before c after :
  Forall settled (lower_ucs4 before c after).
Proof.
  unfold lower_ucs4. destruct (c =? CAPITAL_SIGMA).
  - constructor; [|constructor]. unfold handle_capital_sigma.
    destruct settled_sigma. now destruct (match first_not_ignorable before
      with Some _ => _ | None => _ end).
  - apply Forall_forall. intros d Hd. apply list_elem_of_In in Hd.
    apply (lower_stable U laws c d Hd).
Qed.

Lemma lower_from_settled before s : Forall settled (lower_from before s).
Proof.
  revert before. induction s as [|c s IH]; intros before; simpl.
  - constructor.
  - apply Forall_app. split; [apply lower_ucs4_settled | apply IH].
Qed.

Lemma lower_from_fixed before t :
  Forall settled t -> lower_from before t = t.
Proof.
  revert before. induction t as [|c t IH]; intros before Ht; simpl.
  - reflexivity.
  - inversion Ht as [|? ? [Hc Hne] Ht']; subst.
    unfold lower_ucs4. apply N.eqb_neq in Hne. rewrite Hne, Hc. simpl.
    now rewrite IH.
Qed.

Lemma filter_kept_fixed t :
  Forall (fun c => kept c = true) t -> List.filter kept t = t.
Proof.
  induction t as [|c t IH]; intros Ht; simpl; [reflexivity|].
  inversion Ht as [|? ? Hc Ht']; subst. rewrite Hc. now rewrite IH.
Qed.

Lemma filter_kept_Forall (P : codepoint -> Prop) s :
  Forall P s ->
  Forall (fun c => P c /\ kept c = true) (List.filter kept s).
Proof.
  induction 1 as [|c s Hc Hs IH]; simpl; [constructor|].
  destruct (kept c) eqn:E; [constructor; auto | assumption].
Qed.

Lemma split_from_words (P : codepoint -> Prop) word s :
  Forall (fun c => P c /\ isspace c = false) word -> Forall P s ->
  Forall (word_of P) (split_from word s).
Proof.
  revert word. induction s as [|c s IH]; intros word Hw Hs; simpl.
  - destruct word as [|x word]; constructor; [|constructor].
    split; [discriminate | assumption].
  - inversion Hs as [|? ? Hc Hs']; subst.
    destruct (isspace c) eqn:E.
    + destruct word as [|x word].
      * apply IH; [constructor | assumption].
      * constructor; [split; [discriminate | assumption]|].
        apply IH; [constructor | assumption].
    + apply IH; [|assumption]. apply Forall_app. split; [assumption|].
      constructor; [split; assumption | constructor].
Qed.

Lemma split_from_app (P : codepoint -> Prop) word w rest :
  Forall (fun c => P c /\ isspace c = false) w ->
  split_from word (w ++ rest) = split_from (word ++ w) rest.
Proof.
  revert word. induction w as [|c w IH]; intros word Hw; simpl.
  - now rewrite app_nil_r.
  - inversion Hw as [|? ? [_ Hc] Hw']; subst. rewrite Hc.
    rewrite IH by assumption. now rewrite <- app_assoc.
Qed.

Lemma split_join (P : codepoint -> Prop) ws :
  Forall (word_of P) ws -> split (join [SPACE] ws) = ws.
Proof.
  unfold split. induction 1 as [|w ws [Hne Hw] Hws IH]; [reflexivity|].
  destruct ws as [|w' ws].
  - simpl. rewrite <- (app_nil_r w) at 1.
    rewrite (split_from_app P) by assumption. simpl.
    destruct w; [contradiction | reflexivity].
  - change (join [SPACE] (w :: w' :: ws))
      with (w ++ [SPACE] ++ join [SPACE] (w' :: ws)).
    rewrite (split_from_app P) by assumption. simpl.
    rewrite (space_is_space U laws).
    destruct w; [contradiction|]. f_equal. exact IH.
Qed.

Lemma join_Forall (P : codepoint -> Prop) ws :
  P SPACE -> Forall (Forall P) ws -> Forall P (join [SPACE] ws).
Proof.
  intros Hsp. induction 1 as [|w ws Hw Hws IH]; [constructor|].
  destruct ws as [|w' ws]; [exact Hw|].
  change (join [SPACE] (w :: w' :: ws))
    with (w ++ [SPACE] ++ join [SPACE] (w' :: ws)).
  apply Forall_app. split; [assumption|].
  constructor; [assumption | exact IH].
Qed.

(** C7.  Normalisation is idempotent: [clean_text (clean_text s)] is
    [clean_text s] for every string [s], over any character database in
    which lower-cased characters are stable under lower-casing and U+0020
    is a caseless white space. *)
Theorem clean_text_idempotent (s : pystr) :
  clean_text (clean_text s) = clean_text s.
Proof.
  unfold clean_text at 2.
  set (ws := split (List.filter kept (lower s))).
  pose (P := fun c => settled c /\ kept c = true).
  assert (Hws : Forall (word_of P) ws).
  { apply split_from_words; [constructor|].
    apply filter_kept_Forall, lower_from_settled. }
  assert (Ht : Forall P (join [SPACE] ws)).
  { apply join_Forall.
    - split; [apply settled_space|]. unfold kept.
      rewrite (space_is_space U laws). apply orb_true_r.
    - eapply Forall_impl; [exact Hws|]. intros w [_ Hw].
      eapply Forall_impl; [exact Hw|]. now intros c [Hc _]. }
  unfold clean_text, lower.
  rewrite lower_from_fixed
    by (eapply Forall_impl; [exact Ht|]; now intros c [Hc _]).
  rewrite filter_kept_fixed
    by (eapply Forall_impl; [exact Ht|]; now intros c [_ Hc]).
  now rewrite (split_join P).
Qed.

End Normalizer.

(* ===================================================================== *)
(** ** Properties of the handler *)
(* ===================================================================== *)

Section HandlerFacts.
Context {U : UnicodeData}.

Ltac unfold_py :=
  unfold mbind, Py_bind, mret, Py_ret, logger in *; simpl in *.

(** On an event that carries its fields, [handler] is its [try] block, with
    the apology for anything raised there. *)
Lemma handler_complete um sid uid is_new ctx w :
  handler (complete_event um sid uid is_new) ctx w =
    match handler_body (complete_event um sid uid is_new) um sid uid w with
    | (inr r, w') => (Returned r, w')
    | (inl e, w') =>
        (Returned (create_response APOLOGY RESET_BUTTON (Some sid) (Some uid)),
         World (texts w') (faults w') (log w' ++ [LogHandlerError e]))
    end.
Proof.
  unfold handler, handler_try, handler_except. simpl.
  destruct (handler_body _ um sid uid w) as [[e|r] w']; reflexivity.
Qed.

(** An event that carries the three fields read first is complete up to
    its [new] flag. *)
Lemma event_fields event um sid uid :
  event_user_message event = inr um ->
  event_session_field "session_id" ev_session_id event = inr sid ->
  event_session_field "user_id" ev_user_id event = inr uid ->
  exists nw, event =
    {| ev_request := Some {| original_utterance := Some um |};
       ev_session := Some {| ev_session_id := Some sid;
                             ev_user_id := Some uid;
                             ev_new := nw |} |}.
Proof.
  destruct event as [[[[um'|]]|] [[sid' uid' nw]|]]; simpl;
    unfold event_user_message, event_session_field; simpl;
    try discriminate.
  destruct sid', uid'; simpl; try discriminate.
  intros [= ->] [= ->] [= ->]. now exists nw.
Qed.

(** The [except] clause only writes to the log. *)
Lemma handler_except_rows e fr w :
  rows (snd (handler_except e fr w)) = rows w.
Proof.
  unfold handler_except. destruct (l_session_id fr), (l_user_id fr);
    reflexivity.
Qed.

(** C5.  An event whose new-session flag is set touches no row of [texts],
    whatever else it carries and whatever the server does; and when it
    carries its fields and the schema check meets no fault, the answer is the
    greeting, whatever the utterance (the reset keyword included). *)
Theorem new_session_greets event ctx w :
  event_session_field "new" ev_new event = inr true ->
  rows (snd (handler event ctx w)) = rows w /\
  forall um sid uid,
    event_user_message event = inr um ->
    event_session_field "session_id" ev_session_id event = inr sid ->
    event_session_field "user_id" ev_user_id event = inr uid ->
    fault_free 1 w = true ->
    fst (handler event ctx w) =
      Returned (create_response GREETING RESET_BUTTON (Some sid) (Some uid)).
Proof.
  intros Hnew. split.
  - unfold handler, handler_try.
    destruct (event_user_message event) as [e|um];
      [apply handler_except_rows|].
    destruct (event_session_field "session_id" _ event) as [e|sid];
      [apply handler_except_rows|].
    destruct (event_session_field "user_id" _ event) as [e|uid];
      [apply handler_except_rows|].
    unfold handler_body. unfold_py. rewrite Hnew.
    match goal with
    | |- context [ensure_table_exists ?w0] =>
        pose proof (ensure_table_exists_rows w0) as Hrows;
        destruct (ensure_table_exists w0) as [[e|[]] w1]
    end; simpl in *; exact Hrows.
  - intros um sid uid Hum Hsid Huid Hf.
    destruct (event_fields event um sid uid Hum Hsid Huid) as [nw ->].
    unfold event_session_field in Hnew. simpl in Hnew.
    destruct nw as [[]|]; try discriminate.
    change (fst (handler (complete_event um sid uid true) ctx w) =
            Returned (create_response GREETING RESET_BUTTON
                                      (Some sid) (Some uid))).
    rewrite handler_complete. unfold handler_body. unfold_py.
    rewrite ensure_table_exists_no_fault by exact Hf. reflexivity.
Qed.

(** After the request is logged and the schema checked without a fault, the
    table is there with the rows it had. *)
Lemma fault_free_tail n w l :
  fault_free (S n) w = true ->
  fault_free n (World (Some (rows w)) (List.tl (faults w)) l) = true.
Proof. intros H. now apply fault_free_S in H as [_ H]. Qed.

(** C4 (amended).  On an event of a running session that carries its fields
    and whose utterance, lower-cased by [str.lower] and otherwise untouched,
    is the reset keyword, and with no fault at the schema check and the
    delete, [handler] deletes the session's row, present or not, and answers
    with the deletion confirmation. *)
Theorem reset_deletes um sid uid ctx w :
  lower um = RESET_KEYWORD -> fault_free 2 w = true ->
  fst (handler (complete_event um sid uid false) ctx w) =
    Returned (create_response TEXT_DELETED RESET_BUTTON (Some sid) (Some uid))
  /\ rows (snd (handler (complete_event um sid uid false) ctx w)) =
     delete sid (rows w).
Proof.
  intros Hreset Hf. rewrite handler_complete. unfold handler_body. unfold_py.
  rewrite ensure_table_exists_no_fault by exact (fault_free_1 _ _ Hf).
  simpl. destruct (decide (lower um = RESET_KEYWORD)); [|contradiction].
  erewrite delete_original_text_no_fault;
    [|reflexivity|exact (fault_free_tail _ _ _ Hf)].
  split; reflexivity.
Qed.

(** C9.  With the empty string stored for the session, an event of a running
    session that is not a reset never gets a similarity score, whatever the
    server does; and with no fault at the schema check, the lookup and the
    save, the utterance replaces the stored text and the answer is the save
    confirmation. *)
Theorem empty_original_is_absent um sid uid ctx w :
  rows w !! sid = Some [] -> lower um <> RESET_KEYWORD ->
  (forall r, fst (handler (complete_event um sid uid false) ctx w) = Returned r
             -> ~ is_score_response r) /\
  (fault_free 3 w = true ->
   fst (handler (complete_event um sid uid false) ctx w) =
     Returned (create_response TEXT_SAVED RESET_BUTTON (Some sid) (Some uid))
   /\ rows (snd (handler (complete_event um sid uid false) ctx w)) =
      <[sid := um]> (rows w)).
Proof.
  intros Hrow Hnot.
  assert (Hapology : forall sim o m, APOLOGY <> score_text sim o m).
  { intros sim o m. unfold score_text. vm_compute (lit _). discriminate. }
  assert (Hsaved : forall sim o m, TEXT_SAVED <> score_text sim o m).
  { intros sim o m. unfold score_text. vm_compute (lit _). discriminate. }
  split.
  - intros r. rewrite handler_complete. unfold handler_body. unfold_py.
    destruct (decide (lower um = RESET_KEYWORD)); [contradiction|].
    assert (Hno : forall r', r' = create_response APOLOGY RESET_BUTTON
                                   (Some sid) (Some uid) \/
                             r' = create_response TEXT_SAVED RESET_BUTTON
                                   (Some sid) (Some uid) ->
                             ~ is_score_response r').
    { intros r' [-> | ->] (sim & o & m & H); simpl in H;
        [now apply Hapology in H | now apply Hsaved in H]. }
    match goal with
    | |- context [ensure_table_exists ?w0] =>
        pose proof (ensure_table_exists_rows w0) as Hrows;
        destruct (ensure_table_exists w0) as [[e|[]] w1]
    end; simpl in *.
    { intros [= <-]. apply Hno. now left. }
    destruct (get_original_text sid w1) as [[e|o] w2] eqn:Hget; simpl.
    { intros [= <-]. apply Hno. now left. }
    apply get_original_text_reads in Hget. rewrite Hrows in Hget.
    change (o = rows w !! sid) in Hget. rewrite Hrow in Hget. subst o.
    destruct (save_original_text sid um w2) as [[e|[]] w3]; simpl;
      intros [= <-]; apply Hno; auto.
  - intros Hf. rewrite handler_complete. unfold handler_body. unfold_py.
    rewrite ensure_table_exists_no_fault by exact (fault_free_1 _ _ Hf).
    simpl. destruct (decide (lower um = RESET_KEYWORD)); [contradiction|].
    pose proof (fault_free_tail _ _ (log w ++ [LogRequest uid sid um]) Hf)
      as Hf2.
    erewrite get_original_text_no_fault;
      [|reflexivity|exact (fault_free_1 _ _ Hf2)].
    unfold rows in *. simpl. rewrite Hrow.
    apply fault_free_S in Hf2 as [_ Hf1]. simpl in Hf1.
    erewrite save_original_text_no_fault; [|reflexivity|exact Hf1].
    split; reflexivity.
Qed.

(** Every response of the [try] block is built by [create_response] with
    the reset button and the two identifiers of the event. *)
Lemma handler_body_created event um sid uid w r w' :
  handler_body event um sid uid w = (inr r, w') ->
  exists text,
    r = create_response text RESET_BUTTON (Some sid) (Some uid).
Proof.
  unfold handler_body. unfold_py.
  destruct (ensure_table_exists _) as [[?|[]] w1]; [discriminate|].
  destruct (event_session_field "new" ev_new event) as [?|[]];
    [discriminate | intros [= <- <-]; eauto |].
  destruct (decide (lower um = RESET_KEYWORD)).
  - destruct (delete_original_text sid w1) as [[?|[]] w2];
      [discriminate | intros [= <- <-]; eauto].
  - destruct (get_original_text sid w1) as [[?|[[|c o]|]] w2];
      [discriminate | | intros [= <- <-]; eauto |];
      (destruct (save_original_text sid um w2) as [[?|[]] w3];
       [discriminate | intros [= <- <-]; eauto]).
Qed.

Lemma handler_created event ctx w r w' :
  handler event ctx w = (Returned r, w') ->
  exists text sid uid,
    r = create_response text RESET_BUTTON (Some sid) (Some uid).
Proof.
  unfold handler, handler_try, handler_except.
  destruct (event_user_message event) as [e|um]; [discriminate|].
  destruct (event_session_field "session_id" _ event) as [e|sid];
    [discriminate|].
  destruct (event_session_field "user_id" _ event) as [e|uid];
    [discriminate|].
  destruct (handler_body event um sid uid w) as [[e|r0] w1] eqn:Hbody; simpl.
  - intros [= <- <-]. eauto.
  - intros [= <- <-]. apply handler_body_created in Hbody as [text ->]. eauto.
Qed.

(** C10.  Every response [create_response] builds, and so every response
    [handler] returns on any branch, the apology included, has
    [session.new = True], [end_session = False] and [version = "1.0"],
    whatever the new-session flag of the event. *)
Theorem responses_share_fixed_fields :
  (forall text buttons sid uid,
     fixed_fields (create_response text buttons sid uid)) /\
  (forall event ctx w r w',
     handler event ctx w = (Returned r, w') -> fixed_fields r).
Proof.
  split.
  - intros. repeat split.
  - intros event ctx w r w' H.
    apply handler_created in H as (text & sid & uid & ->). repeat split.
Qed.

(** With the two identifiers bound, [handler] returns a response whatever
    the server does. *)
Lemma handler_returns_complete um sid uid is_new ctx w :
  exists r, fst (handler (complete_event um sid uid is_new) ctx w) = Returned r.
Proof.
  rewrite handler_complete.
  destruct (handler_body _ um sid uid w) as [[e|r] w']; simpl; eauto.
Qed.

(** C1.  The event without its [request] key: [handler] does not return; the
    [except] clause reads [session_id] before it was bound and the
    [UnboundLocalError] leaves [handler]. *)
Theorem handler_escapes_without_request sid uid is_new ctx w :
  fst (handler {| ev_request := None;
                  ev_session := Some {| ev_session_id := Some sid;
                                        ev_user_id := Some uid;
                                        ev_new := Some is_new |} |} ctx w)
  = Escaped (UnboundLocalError "session_id").
Proof. reflexivity. Qed.

End HandlerFacts.

(* ===================================================================== *)
(** ** Properties of the scorer *)
(* ===================================================================== *)

Section ScorerFacts.
Context {U : UnicodeData}.

(** C2.  A text scores 100 against itself: [calculate_similarity s s = 100]
    for every [s], the empty string and the strings that normalise to it
    included. *)
Theorem similarity_self (s : pystr) : calculate_similarity s s = 100%Z.
Proof.
  unfold calculate_similarity, fuzz_ratio.
  destruct (decide (clean_text s = clean_text s)); [reflexivity|congruence].
Qed.

(** C3.  Two empty strings score 100. *)
Theorem similarity_empty_empty : calculate_similarity [] [] = 100%Z.
Proof.
  unfold calculate_similarity.
  change (clean_text []) with (@nil N). reflexivity.
Qed.

End ScorerFacts.


(* ===================================================================== *)
(** ** The matcher always finishes *)
(* ===================================================================== *)

Section MatcherFacts.
Import Difflib.
Local Open Scope Z_scope.
Variables a b : pystr.

Lemma scan_row_inside alo i blo bhi j2len js newj2len best :
  alo <= i ->
  run_lengths_upto (i - alo) j2len ->
  run_lengths_upto (i - alo + 1) newj2len ->
  inside alo (i + 1) best ->
  run_lengths_upto (i - alo + 1)
    (fst (scan_row i blo bhi j2len js newj2len best)) /\
  inside alo (i + 1) (snd (scan_row i blo bhi j2len js newj2len best)).
Proof.
  intros Hi Hold. revert newj2len best.
  induction js as [|j js IH]; intros newj2len best Hnew Hbest; simpl.
  - now split.
  - destruct (j <? blo); [now apply IH|].
    destruct (bhi <=? j); [now split|].
    assert (Hk : 1 <= default 0 (j2len !! (j - 1)) + 1 <= i - alo + 1).
    { destruct (j2len !! (j - 1)) as [k|] eqn:E; simpl.
      - apply Hold in E. lia.
      - lia. }
    apply IH.
    + intros j' k'. destruct (decide (j = j')) as [->|Hne].
      * rewrite lookup_insert_eq. intros [= <-]. lia.
      * rewrite lookup_insert_ne by assumption. apply Hnew.
    + destruct (m_size best <? _); [|assumption].
      unfold inside, m_size; simpl. lia.
Qed.

Lemma inside_weaken alo hi hi' m : hi <= hi' -> inside alo hi m -> inside alo hi' m.
Proof. unfold inside. lia. Qed.

Lemma scan_rows_inside n alo i blo bhi j2len best :
  alo <= i ->
  run_lengths_upto (i - alo) j2len ->
  inside alo i best ->
  inside alo (i + Z.of_nat n) (scan_rows a b n i blo bhi j2len best).
Proof.
  revert i j2len best.
  induction n as [|n IH]; intros i j2len best Hi Hlen Hbest.
  - simpl scan_rows. now rewrite Z.add_0_r.
  - cbn [scan_rows].
    match goal with
    | |- context [scan_row i blo bhi j2len ?js ∅ best] =>
        pose proof (scan_row_inside alo i blo bhi j2len js ∅ best Hi Hlen)
          as Hrow;
        destruct (scan_row i blo bhi j2len js ∅ best) as [new best']
    end.
    destruct Hrow as [Hnew Hbest'].
    { intros j k. rewrite lookup_empty. discriminate. }
    { eapply inside_weaken; [|exact Hbest]. lia. }
    simpl in Hnew, Hbest'.
    replace (i + Z.of_nat (S n)) with ((i + 1) + Z.of_nat n) by lia.
    apply IH; [lia | | assumption].
    now replace (i + 1 - alo) with (i - alo + 1) by lia.
Qed.

Lemma extend_left_inside fuel junk alo blo hi m :
  inside alo hi m -> inside alo hi (extend_left a b fuel junk alo blo m).
Proof.
  revert m. induction fuel as [|fuel IH]; intros [[bi bj] bk] Hm;
    [exact Hm|]. cbn [extend_left].
  destruct (alo <? bi) eqn:E; simpl; [|exact Hm].
  match goal with |- context [if ?c then _ else _] => destruct c end;
    [|exact Hm].
  apply IH. apply Z.ltb_lt in E. revert Hm. unfold inside, m_size; simpl. lia.
Qed.

Lemma extend_right_inside fuel junk alo ahi bhi m :
  inside alo ahi m -> inside alo ahi (extend_right a b fuel junk ahi bhi m).
Proof.
  revert m. induction fuel as [|fuel IH]; intros [[bi bj] bk] Hm;
    [exact Hm|]. cbn [extend_right].
  destruct (bi + bk <? ahi) eqn:E; simpl; [|exact Hm].
  match goal with |- context [if ?c then _ else _] => destruct c end;
    [|exact Hm].
  apply IH. apply Z.ltb_lt in E. revert Hm. unfold inside, m_size; simpl. lia.
Qed.

(** The block [find_longest_match] returns lies in the range it was given. *)
Lemma find_longest_match_inside alo ahi blo bhi :
  alo <= ahi -> inside alo ahi (find_longest_match a b alo ahi blo bhi).
Proof.
  intros H. unfold find_longest_match. cbv zeta.
  apply extend_right_inside, extend_left_inside, extend_right_inside,
    extend_left_inside.
  replace ahi with (alo + Z.of_nat (Z.to_nat (ahi - alo))) at 1 by lia.
  apply scan_rows_inside; [lia | | unfold inside, m_size; simpl; lia].
  intros j k. rewrite lookup_empty. discriminate.
Qed.

Lemma matching_loop_finishes fuel queue blocks :
  Forall proper queue -> (work queue <= fuel)%nat ->
  is_Some (matching_loop a b fuel queue blocks).
Proof.
  revert queue blocks.
  induction fuel as [|fuel IH]; intros queue blocks Hq Hfuel.
  - destruct queue as [|[[[alo ahi] blo] bhi] queue]; simpl in *;
      [eauto | lia].
  - destruct queue as [|[[[alo ahi] blo] bhi] queue]; [simpl; eauto|].
    inversion Hq as [|? ? Hr Hq']; subst. simpl in Hr.
    cbn [matching_loop]. simpl in Hfuel.
    pose proof (find_longest_match_inside alo ahi blo bhi Hr) as Hin.
    destruct (find_longest_match a b alo ahi blo bhi) as [[i j] k].
    unfold inside, m_size in Hin; simpl in Hin.
    destruct (k =? 0) eqn:Ek; [apply IH; [assumption | lia]|].
    apply Z.eqb_neq in Ek. apply IH.
    + destruct ((i + k <? ahi) && (j + k <? bhi)) eqn:E2;
        destruct ((alo <? i) && (blo <? j)) eqn:E1;
        repeat constructor; try assumption; simpl; lia.
    + destruct ((i + k <? ahi) && (j + k <? bhi)) eqn:E2;
        destruct ((alo <? i) && (blo <? j)) eqn:E1; simpl; lia.
Qed.

(** [get_matching_blocks] returns its blocks: the fuel it is run with is
    enough for any two strings. *)
Lemma get_matching_blocks_total : is_Some (get_matching_blocks a b).
Proof.
  unfold get_matching_blocks. cbv zeta.
  destruct (matching_loop_finishes (enough_fuel a)
              [(0, Z.of_nat (length a), 0, Z.of_nat (length b))] [])
    as [blocks ->]; [| |simpl; eauto].
  - repeat constructor. simpl. lia.
  - unfold enough_fuel. simpl. lia.
Qed.

(** *** Two strings without a common element *)

Hypothesis apart : forall c, c ∈ a -> c ∈ b -> False.









End MatcherFacts.

Section ScorerSymmetry.
Context {U : UnicodeData}.


End ScorerSymmetry.

(* ===================================================================== *)
(** ** The properties at concrete sessions *)
(* ===================================================================== *)

Section Concrete.
Import Examples.
#[local] Existing Instance BasicUnicode.data.

Ltac cases_N :=
  repeat match goal with
    | H : context [N.leb ?x ?y] |- _ => destruct (N.leb_spec x y)
    | H : context [N.eqb ?x ?y] |- _ => destruct (N.eqb_spec x y)
    | |- context [N.leb ?x ?y] => destruct (N.leb_spec x y)
    | |- context [N.eqb ?x ?y] => destruct (N.eqb_spec x y)
    end; simpl in *.

(** The fragment satisfies the laws asked of a character database. *)
Lemma basic_unicode_laws : unicode_laws BasicUnicode.data.
Proof.
  split; try reflexivity; [|split; reflexivity].
  intros c d Hin. unfold settled. simpl in *.
  unfold BasicUnicode.to_lower_full, BasicUnicode.in_range,
    CAPITAL_SIGMA, SMALL_SIGMA in *.
  cases_N; destruct Hin as [<-|[]]; cases_N;
    first [lia | split; [reflexivity | lia]].
Qed.

Lemma save_twice_then_load_witness :
  fst (get_original_text sid
         (snd (save_original_text sid diet
                 (snd (save_original_text sid tide empty_store)))))
  = inr (Some diet).
Proof.
  apply (save_twice_then_load empty_store sid tide diet);
    [eexists; reflexivity | reflexivity].
Defined.

Lemma clean_text_idempotent_witness :
  clean_text (clean_text hello) = clean_text hello.
Proof. apply (clean_text_idempotent basic_unicode_laws hello). Defined.

Lemma new_session_greets_witness :
  fst (handler (complete_event RESET_KEYWORD sid uid true) tt (store_with abc))
  = Returned (create_response GREETING RESET_BUTTON (Some sid) (Some uid)).
Proof.
  apply (proj2 (new_session_greets
                  (complete_event RESET_KEYWORD sid uid true) tt
                  (store_with abc) eq_refl) RESET_KEYWORD sid uid);
    reflexivity.
Defined.

Lemma reset_deletes_witness :
  rows (snd (handler (complete_event reset_button_label sid uid false) tt
                     (store_with abc)))
  = delete sid (rows (store_with abc)).
Proof.
  apply (reset_deletes reset_button_label sid uid tt (store_with abc));
    vm_compute; reflexivity.
Defined.

(** C4, as stated, fails: the utterance "сбросить." normalises to the reset
    keyword, yet [handler] scores it against the stored text and the row
    stays. *)
Lemma reset_with_punctuation_is_not_reset :
  clean_text reset_with_stop = RESET_KEYWORD /\
  fault_free 2 (store_with abc) = true /\
  fst (handler (complete_event reset_with_stop sid uid false) tt
               (store_with abc))
    <> Returned (create_response TEXT_DELETED RESET_BUTTON
                                 (Some sid) (Some uid)) /\
  rows (snd (handler (complete_event reset_with_stop sid uid false) tt
                     (store_with abc))) !! sid = Some abc.
Proof.
  split; [vm_compute; reflexivity|].
  split; [reflexivity|].
  split; [vm_compute; discriminate | vm_compute; reflexivity].
Qed.

Lemma empty_original_is_absent_witness :
  fst (handler (complete_event abc sid uid false) tt (store_with []))
  = Returned (create_response TEXT_SAVED RESET_BUTTON (Some sid) (Some uid)).
Proof.
  refine (proj1 (proj2 (empty_original_is_absent (U := BasicUnicode.data)
                          abc sid uid tt (store_with []) eq_refl _)
                   eq_refl)).
  vm_compute. discriminate.
Defined.

Lemma responses_share_fixed_fields_witness :
  fixed_fields (create_response GREETING RESET_BUTTON (Some sid) (Some uid)).
Proof.
  apply (proj2 responses_share_fixed_fields
           (complete_event abc sid uid true) tt empty_store
           (create_response GREETING RESET_BUTTON (Some sid) (Some uid))
           (World (Some ∅) [] [LogRequest uid sid abc])).
  reflexivity.
Defined.



End Concrete.

(* ===================================================================== *)
(** ** Further properties of the persistence store *)
(* ===================================================================== *)

Section StoreFacts.
Import Examples.

Ltac unfold_store :=
  unfold save_original_text, get_original_text, delete_original_text,
    ensure_table_exists, execute_query, get_mysql_connection, cursor_execute,
    mbind, Py_bind, mret, Py_ret, rows in *.

(** The fault schedule is read from its head, whatever else the world
    holds. *)
Lemma fault_free_next n t fs l t' l' :
  fault_free (S n) (World t fs l) = true ->
  fault_free n (World t' (List.tl fs) l') = true.
Proof.
  intros H. apply fault_free_S in H as [_ H]. exact H.
Qed.

(** X1.  Round trip: on a server that has the table and meets no fault, the
    text saved for a session is the text [get_original_text] returns
    next. *)
Theorem save_then_load w sid text :
  is_Some (texts w) -> fault_free 2 w = true ->
  fst (get_original_text sid (snd (save_original_text sid text w)))
  = inr (Some text).
Proof.
  intros [m Hm] Hf.
  rewrite (save_original_text_no_fault sid text w m Hm (fault_free_1 _ _ Hf)).
  destruct w as [t fs l]. simpl in *.
  erewrite get_original_text_no_fault;
    [|reflexivity|exact (fault_free_next _ _ _ _ _ _ Hf)].
  simpl. now rewrite lookup_insert_eq.
Qed.

Lemma save_then_load_witness :
  fst (get_original_text sid (snd (save_original_text sid abc empty_store)))
  = inr (Some abc).
Proof.
  apply (save_then_load empty_store sid abc);
    [eexists; reflexivity | reflexivity].
Defined.

(** X2.  Save, delete, load: after [delete_original_text] the lookup finds
    nothing and returns [None] without raising, whatever was saved. *)
Theorem save_delete_load w sid text :
  is_Some (texts w) -> fault_free 3 w = true ->
  let w1 := snd (save_original_text sid text w) in
  let w2 := snd (delete_original_text sid w1) in
  fst (delete_original_text sid w1) = inr tt /\
  fst (get_original_text sid w2) = inr None.
Proof.
  intros [m Hm] Hf. cbv zeta.
  rewrite (save_original_text_no_fault sid text w m Hm (fault_free_1 _ _ Hf)).
  destruct w as [t fs l]. simpl in *.
  pose proof (fault_free_next _ t fs l
                (Some (<[sid := text]> m)) l Hf) as Hf2.
  erewrite delete_original_text_no_fault;
    [|reflexivity|exact (fault_free_1 _ _ Hf2)].
  simpl. split; [reflexivity|].
  erewrite get_original_text_no_fault;
    [|reflexivity|exact (fault_free_next _ _ _ _ _ _ Hf2)].
  simpl. now rewrite lookup_delete_eq.
Qed.

Lemma save_delete_load_witness :
  fst (get_original_text sid
         (snd (delete_original_text sid
                 (snd (save_original_text sid abc empty_store)))))
  = inr None.
Proof.
  apply (save_delete_load empty_store sid abc);
    [eexists; reflexivity | reflexivity].
Defined.

(** X3.  Deleting a session that has no row is no error: the call returns
    and the table keeps exactly the rows it had. *)
Theorem delete_absent_row w sid m :
  texts w = Some m -> m !! sid = None -> fault_free 1 w = true ->
  fst (delete_original_text sid w) = inr tt /\
  texts (snd (delete_original_text sid w)) = Some m.
Proof.
  intros Hm Hrow Hf.
  rewrite (delete_original_text_no_fault sid w m Hm Hf). simpl.
  now rewrite delete_id.
Qed.

Lemma delete_absent_row_witness :
  fst (delete_original_text sid empty_store) = inr tt /\
  texts (snd (delete_original_text sid empty_store)) = Some ∅.
Proof.
  apply (delete_absent_row empty_store sid ∅); reflexivity.
Defined.

(** The rows of the other sessions after a save or a delete. *)
Lemma save_rows_other sid sid' text w :
  sid <> sid' ->
  rows (snd (save_original_text sid text w)) !! sid' = rows w !! sid'.
Proof.
  intros Hne. destruct w as [t fs l]. unfold_store. simpl.
  destruct fs as [|[] fs]; simpl; try reflexivity;
    destruct t as [m|]; simpl; try reflexivity;
    destruct (m !! sid); simpl; now rewrite lookup_insert_ne.
Qed.

Lemma delete_rows_other sid sid' w :
  sid <> sid' ->
  rows (snd (delete_original_text sid w)) !! sid' = rows w !! sid'.
Proof.
  intros Hne. destruct w as [t fs l]. unfold_store. simpl.
  destruct fs as [|[] fs]; simpl; try reflexivity;
    destruct t as [m|]; simpl; try reflexivity;
    now rewrite lookup_delete_ne.
Qed.

Lemma get_original_text_texts sid w :
  texts (snd (get_original_text sid w)) = texts w.
Proof.
  destruct w as [t fs l]. unfold_store. simpl.
  destruct fs as [|[] fs]; simpl; try reflexivity;
    destruct t as [m|]; simpl; try reflexivity;
    destruct (m !! sid); reflexivity.
Qed.

(** X4.  Isolation: saving or deleting the text of one session leaves the
    row of every other session as it was, whether the statement goes through
    or fails. *)
Theorem other_sessions_untouched w sid sid' text :
  sid <> sid' ->
  rows (snd (save_original_text sid text w)) !! sid' = rows w !! sid' /\
  rows (snd (delete_original_text sid w)) !! sid' = rows w !! sid'.
Proof.
  intros Hne. split;
    [now apply save_rows_other | now apply delete_rows_other].
Qed.

Lemma other_sessions_untouched_witness :
  rows (snd (save_original_text uid tide (store_with abc))) !! sid = Some abc /\
  rows (snd (delete_original_text uid (store_with abc))) !! sid = Some abc.
Proof.
  apply (other_sessions_untouched (store_with abc) uid sid tide).
  vm_compute. discriminate.
Defined.

(** X5.  [ensure_table_exists] creates the table, empty, when it is not
    there, and a second call changes nothing: it is safe on every
    request. *)
Theorem ensure_table_exists_idempotent w :
  fault_free 2 w = true ->
  let w1 := snd (ensure_table_exists w) in
  let w2 := snd (ensure_table_exists w1) in
  texts w1 = Some (rows w) /\
  (texts w = None -> texts w1 = Some ∅) /\
  fst (ensure_table_exists w1) = inr tt /\ texts w2 = texts w1.
Proof.
  intros Hf. cbv zeta.
  rewrite (ensure_table_exists_no_fault w (fault_free_1 _ _ Hf)). simpl.
  rewrite (ensure_table_exists_no_fault _ (fault_free_tail _ _ (log w) Hf)).
  simpl. split; [reflexivity|]. split; [|split; reflexivity].
  unfold rows. now intros ->.
Qed.

Lemma ensure_table_exists_idempotent_witness :
  texts (snd (ensure_table_exists (World None [] []))) = Some ∅.
Proof.
  apply (ensure_table_exists_idempotent (World None [] []) eq_refl).
Defined.



(** X7.  The lookup is read-only: [get_original_text] leaves the table as it
    is, whether it returns or raises. *)
Theorem lookup_is_read_only w sid :
  texts (snd (get_original_text sid w)) = texts w.
Proof. apply get_original_text_texts. Qed.

End StoreFacts.

(* ===================================================================== *)
(** ** Further properties of the handler *)
(* ===================================================================== *)

Section DialogueFacts.
Context {U : UnicodeData}.

Ltac unfold_py :=
  unfold mbind, Py_bind, mret, Py_ret, logger in *; simpl in *.

Lemma fault_free_iter k n w t l :
  fault_free (k + n) w = true ->
  fault_free n (World t (Nat.iter k (@List.tl fault) (faults w)) l) = true.
Proof.
  revert w t l. induction k as [|k IH]; intros w t l H.
  - exact H.
  - simpl. replace (List.tl (Nat.iter k (@List.tl fault) (faults w)))
      with (Nat.iter k (@List.tl fault) (List.tl (faults w)))
      by (clear; induction k; simpl; congruence).
    apply (IH (World (texts w) (List.tl (faults w)) (log w)) t l).
    now apply fault_free_S in H as [_ H].
Qed.

(** The four branches of [handler] on a complete event, with the world each
    one leaves, when no statement meets a fault. *)
Lemma handler_greets um sid uid ctx w :
  fault_free 1 w = true ->
  handler (complete_event um sid uid true) ctx w =
    (Returned (create_response GREETING RESET_BUTTON (Some sid) (Some uid)),
     after_statements 1 (rows w) (LogRequest uid sid um) w).
Proof.
  intros Hf. rewrite handler_complete. unfold handler_body. unfold_py.
  rewrite ensure_table_exists_no_fault by exact Hf. reflexivity.
Qed.

Lemma handler_resets um sid uid ctx w :
  lower um = RESET_KEYWORD -> fault_free 2 w = true ->
  handler (complete_event um sid uid false) ctx w =
    (Returned (create_response TEXT_DELETED RESET_BUTTON
                               (Some sid) (Some uid)),
     after_statements 2 (delete sid (rows w)) (LogRequest uid sid um) w).
Proof.
  intros Hreset Hf. rewrite handler_complete. unfold handler_body. unfold_py.
  rewrite ensure_table_exists_no_fault by exact (fault_free_1 _ _ Hf).
  simpl. destruct (decide (lower um = RESET_KEYWORD)); [|contradiction].
  erewrite delete_original_text_no_fault;
    [|reflexivity|exact (fault_free_tail _ _ _ Hf)].
  reflexivity.
Qed.

Lemma handler_saves um sid uid ctx w :
  rows w !! sid = None \/ rows w !! sid = Some [] ->
  lower um <> RESET_KEYWORD -> fault_free 3 w = true ->
  handler (complete_event um sid uid false) ctx w =
    (Returned (create_response TEXT_SAVED RESET_BUTTON (Some sid) (Some uid)),
     after_statements 3 (<[sid := um]> (rows w)) (LogRequest uid sid um) w).
Proof.
  intros Hrow Hnot Hf. rewrite handler_complete. unfold handler_body.
  unfold_py.
  rewrite ensure_table_exists_no_fault by exact (fault_free_1 _ _ Hf).
  simpl. destruct (decide (lower um = RESET_KEYWORD)); [contradiction|].
  pose proof (fault_free_tail _ _ (log w ++ [LogRequest uid sid um]) Hf)
    as Hf2.
  erewrite get_original_text_no_fault;
    [|reflexivity|exact (fault_free_1 _ _ Hf2)].
  apply fault_free_S in Hf2 as [_ Hf1]. simpl in Hf1.
  unfold rows in *. simpl.
  destruct Hrow as [-> | ->];
    (erewrite save_original_text_no_fault; [|reflexivity|exact Hf1]);
    reflexivity.
Qed.

Lemma handler_scores um sid uid ctx w original_text :
  rows w !! sid = Some original_text -> original_text <> [] ->
  lower um <> RESET_KEYWORD -> fault_free 2 w = true ->
  handler (complete_event um sid uid false) ctx w =
    (Returned (create_response
                 (score_text (calculate_similarity original_text um)
                             original_text um)
                 RESET_BUTTON (Some sid) (Some uid)),
     after_statements 2 (rows w) (LogRequest uid sid um) w).
Proof.
  intros Hrow Hne Hnot Hf. rewrite handler_complete. unfold handler_body.
  unfold_py.
  rewrite ensure_table_exists_no_fault by exact (fault_free_1 _ _ Hf).
  simpl. destruct (decide (lower um = RESET_KEYWORD)); [contradiction|].
  erewrite get_original_text_no_fault;
    [|reflexivity|exact (fault_free_tail _ _ _ Hf)].
  unfold rows in *. simpl. rewrite Hrow.
  destruct original_text; [contradiction | reflexivity].
Qed.

Lemma after_statements_rows n t entry w :
  rows (after_statements n t entry w) = t.
Proof. reflexivity. Qed.

Lemma after_statements_fault_free k n t entry w :
  fault_free (k + n) w = true ->
  fault_free n (after_statements k t entry w) = true.
Proof. apply fault_free_iter. Qed.

End DialogueFacts.

Section DialogueProperties.
Context {U : UnicodeData}.
Import Examples.

Ltac unfold_py :=
  unfold mbind, Py_bind, mret, Py_ret, logger in *; simpl in *.

(** A response comes from an event that carries the three fields read
    first, and is built from its two identifiers. *)
Lemma handler_returned event ctx w r w' :
  handler event ctx w = (Returned r, w') ->
  exists um sid uid text,
    event_user_message event = inr um /\
    event_session_field "session_id" ev_session_id event = inr sid /\
    event_session_field "user_id" ev_user_id event = inr uid /\
    r = create_response text RESET_BUTTON (Some sid) (Some uid).
Proof.
  unfold handler, handler_try, handler_except.
  destruct (event_user_message event) as [e|um]; [discriminate|].
  destruct (event_session_field "session_id" _ event) as [e|sid];
    [discriminate|].
  destruct (event_session_field "user_id" _ event) as [e|uid];
    [discriminate|].
  destruct (handler_body event um sid uid w) as [[e|r0] w1] eqn:Hbody; simpl.
  - intros [= <- <-]. exists um, sid, uid. eauto.
  - intros [= <- <-]. apply handler_body_created in Hbody as [text ->].
    exists um, sid, uid. eauto.
Qed.

(** X8.  [handler] returns a response exactly for the events that carry
    [request.original_utterance], [session.session_id] and
    [session.user_id]; for any other event an exception leaves it.  The
    [new] flag and the state of the server play no part in this. *)
Theorem handler_returns_iff_fields event ctx w :
  (exists r, fst (handler event ctx w) = Returned r) <->
  (exists um sid uid,
     event_user_message event = inr um /\
     event_session_field "session_id" ev_session_id event = inr sid /\
     event_session_field "user_id" ev_user_id event = inr uid).
Proof.
  split.
  - intros [r Hr]. destruct (handler event ctx w) as [o w'] eqn:H.
    simpl in Hr. subst o.
    apply handler_returned in H as (um & sid & uid & text & H1 & H2 & H3 & _).
    exists um, sid, uid. auto.
  - intros (um & sid & uid & H1 & H2 & H3).
    unfold handler, handler_try, handler_except. rewrite H1, H2, H3.
    destruct (handler_body event um sid uid w) as [[e|r] w']; simpl; eauto.
Qed.

(** X9.  An event that carries its three fields but no [new] flag gets the
    apology, and no row of [texts] changes, whatever the server does. *)
Theorem handler_without_new_flag um sid uid ctx w :
  let event := {| ev_request := Some {| original_utterance := Some um |};
                  ev_session := Some {| ev_session_id := Some sid;
                                        ev_user_id := Some uid;
                                        ev_new := None |} |} in
  fst (handler event ctx w) =
    Returned (create_response APOLOGY RESET_BUTTON (Some sid) (Some uid)) /\
  rows (snd (handler event ctx w)) = rows w.
Proof.
  cbv zeta. unfold handler, handler_try, handler_except, handler_body.
  unfold event_user_message, event_session_field. unfold_py.
  match goal with
  | |- context [ensure_table_exists ?w0] =>
      pose proof (ensure_table_exists_rows w0) as Hrows;
      destruct (ensure_table_exists w0) as [[e|[]] w1]
  end; simpl in *; split; try reflexivity; exact Hrows.
Qed.

(** X10.  The first utterance of a running session that has no row and is
    not a reset is stored as it was said, not normalised, and the answer is
    the save confirmation (no fault at the schema check, lookup and save). *)
Theorem first_utterance_is_saved um sid uid ctx w :
  rows w !! sid = None -> lower um <> RESET_KEYWORD ->
  fault_free 3 w = true ->
  fst (handler (complete_event um sid uid false) ctx w) =
    Returned (create_response TEXT_SAVED RESET_BUTTON (Some sid) (Some uid))
  /\ rows (snd (handler (complete_event um sid uid false) ctx w)) !! sid =
     Some um.
Proof.
  intros Hrow Hnot Hf.
  rewrite (handler_saves um sid uid ctx w (or_introl Hrow) Hnot Hf).
  split; [reflexivity|]. simpl. apply lookup_insert_eq.
Qed.

(** X11.  With a non-empty text stored, an utterance that is not a reset
    gets the score of the stored text against it, with both texts quoted as
    they are, and the stored text stays (no fault at the schema check and the
    lookup). *)
Theorem recitation_is_scored um sid uid ctx w original_text :
  rows w !! sid = Some original_text -> original_text <> [] ->
  lower um <> RESET_KEYWORD -> fault_free 2 w = true ->
  fst (handler (complete_event um sid uid false) ctx w) =
    Returned (create_response
                (score_text (calculate_similarity original_text um)
                            original_text um)
                RESET_BUTTON (Some sid) (Some uid))
  /\ rows (snd (handler (complete_event um sid uid false) ctx w)) = rows w.
Proof.
  intros Hrow Hne Hnot Hf.
  rewrite (handler_scores um sid uid ctx w original_text Hrow Hne Hnot Hf).
  split; reflexivity.
Qed.

(** X12.  Every response echoes the session and user identifiers of the
    event and offers the one reset button, hidden after use. *)
Theorem response_echoes_event event ctx w r w' sid uid :
  handler event ctx w = (Returned r, w') ->
  event_session_field "session_id" ev_session_id event = inr sid ->
  event_session_field "user_id" ev_user_id event = inr uid ->
  session_id (session r) = Some sid /\ user_id (session r) = Some uid /\
  buttons (response r) = [{| title := reset_button_label; hide := true |}].
Proof.
  intros H Hsid Huid.
  apply handler_returned in H
    as (um & sid' & uid' & text & _ & H2 & H3 & ->).
  rewrite Hsid in H2. rewrite Huid in H3.
  injection H2 as <-. injection H3 as <-. repeat split.
Qed.

(** The [try] block leaves the rows of the other sessions alone. *)
Lemma handler_body_rows_other event um sid uid w sid' :
  sid <> sid' ->
  rows (snd (handler_body event um sid uid w)) !! sid' = rows w !! sid'.
Proof.
  intros Hne. unfold handler_body. unfold_py.
  match goal with
  | |- context [ensure_table_exists ?w0] =>
      pose proof (ensure_table_exists_rows w0) as Hrows;
      destruct (ensure_table_exists w0) as [[?|[]] w1]
  end; simpl in *; [now rewrite Hrows|].
  change (rows w1 = rows w) in Hrows.
  destruct (event_session_field "new" ev_new event) as [?|[]]; simpl;
    try (now rewrite Hrows).
  destruct (decide (lower um = RESET_KEYWORD)).
  - pose proof (delete_rows_other sid sid' w1 Hne) as Hdel.
    destruct (delete_original_text sid w1) as [[?|[]] w2]; simpl in *;
      now rewrite Hdel, Hrows.
  - pose proof (get_original_text_texts sid w1) as Hget.
    destruct (get_original_text sid w1) as [[?|o] w2]; simpl in *.
    + unfold rows in *. now rewrite Hget, Hrows.
    + assert (Hw2 : rows w2 = rows w) by (unfold rows in *; congruence).
      pose proof (save_rows_other sid sid' um w2 Hne) as Hsave.
      destruct o as [[|c o]|];
        try (destruct (save_original_text sid um w2) as [[?|[]] w3];
             simpl in *; now rewrite Hsave, Hw2).
      simpl. now rewrite Hw2.
Qed.

(** X13.  Isolation: whatever the event and whatever the server does, a
    request leaves the row of every session other than its own as it
    was. *)
Theorem handler_keeps_other_sessions event ctx w sid' :
  event_session_field "session_id" ev_session_id event <> inr sid' ->
  rows (snd (handler event ctx w)) !! sid' = rows w !! sid'.
Proof.
  intros Hother. unfold handler, handler_try.
  destruct (event_user_message event) as [e|um];
    [now rewrite handler_except_rows|].
  destruct (event_session_field "session_id" _ event) as [e|sid];
    [now rewrite handler_except_rows|].
  destruct (event_session_field "user_id" _ event) as [e|uid];
    [now rewrite handler_except_rows|].
  assert (Hne : sid <> sid') by congruence.
  pose proof (handler_body_rows_other event um sid uid w sid' Hne) as Hbody.
  destruct (handler_body event um sid uid w) as [[e|r] w1];
    cbn [fst snd] in *; [rewrite handler_except_rows|]; exact Hbody.
Qed.

End DialogueProperties.

Section DialogueFlows.
Context {U : UnicodeData}.

(** A schedule free of faults for [n] statements is free of them for
    fewer. *)
Lemma fault_free_fewer m n w :
  (m <= n)%nat -> fault_free n w = true -> fault_free m w = true.
Proof.
  unfold fault_free. generalize (faults w). clear w. revert n.
  induction m as [|m IH]; intros n fs Hle H; [reflexivity|].
  destruct n as [|n]; [lia|]. destruct fs as [|f fs]; [reflexivity|].
  simpl in *. apply andb_prop in H as [Hf Hfs]. rewrite Hf. simpl.
  apply (IH n); [lia | exact Hfs].
Qed.

Lemma no_faults_fault_free n w : faults w = [] -> fault_free n w = true.
Proof. unfold fault_free. intros ->. now destruct n. Qed.

(** X14.  When the server refuses the first connection of a request, the
    failure is logged where it happens and again at the boundary, the table
    is untouched, and the answer is the apology with the identifiers of the
    event. *)
Theorem refused_connection_is_apologised um sid uid is_new ctx w fs :
  faults w = ConnectFault :: fs ->
  handler (complete_event um sid uid is_new) ctx w =
    (Returned (create_response APOLOGY RESET_BUTTON (Some sid) (Some uid)),
     World (texts w) fs
           (log w ++ [LogRequest uid sid um;
                      LogConnectError ConnectionFailed;
                      LogHandlerError (MySQLError ConnectionFailed)])).
Proof.
  destruct w as [t fs' l]. simpl. intros ->.
  rewrite handler_complete. unfold handler_body, ensure_table_exists,
    execute_query, get_mysql_connection, mbind, Py_bind, logger. simpl.
  now rewrite <- !app_assoc.
Qed.

(** X15.  A failure at the lookup (the second statement of a request that is
    neither a session start nor a reset) gives the apology and leaves every
    row as it was. *)
Theorem failed_lookup_is_apologised um sid uid ctx w f fs :
  faults w = NoFault :: f :: fs -> f <> NoFault ->
  lower um <> RESET_KEYWORD ->
  fst (handler (complete_event um sid uid false) ctx w) =
    Returned (create_response APOLOGY RESET_BUTTON (Some sid) (Some uid)) /\
  rows (snd (handler (complete_event um sid uid false) ctx w)) = rows w.
Proof.
  destruct w as [t fs' l]. simpl. intros -> Hf Hnot.
  rewrite handler_complete. unfold handler_body, ensure_table_exists,
    get_original_text, execute_query, get_mysql_connection, cursor_execute,
    mbind, Py_bind, mret, Py_ret, logger, rows. simpl.
  destruct (decide (lower um = RESET_KEYWORD)); [contradiction|].
  destruct t as [m|]; simpl; destruct f; try contradiction; simpl;
    split; reflexivity.
Qed.

(** The fixed texts are told apart from the apology. *)
Lemma score_text_not_apology similarity original_text user_message :
  score_text similarity original_text user_message <> APOLOGY.
Proof. unfold score_text. vm_compute (lit _). discriminate. Qed.

(** X16.  With no fault ahead, an event that carries its four fields never
    gets the apology, whatever it says and whatever the table holds, even
    when the table does not exist yet. *)
Theorem no_fault_no_apology um sid uid is_new ctx w :
  faults w = [] ->
  exists r, fst (handler (complete_event um sid uid is_new) ctx w) = Returned r
            /\ text (response r) <> APOLOGY.
Proof.
  intros Hfs. pose proof (fun n => no_faults_fault_free n w Hfs) as Hf.
  destruct is_new.
  - rewrite (handler_greets um sid uid ctx w (Hf 1%nat)).
    eexists. split; [reflexivity | discriminate].
  - destruct (decide (lower um = RESET_KEYWORD)) as [Hreset|Hnot].
    + rewrite (handler_resets um sid uid ctx w Hreset (Hf 2%nat)).
      eexists. split; [reflexivity | discriminate].
    + destruct (rows w !! sid) as [[|c o]|] eqn:Hrow.
      * rewrite (handler_saves um sid uid ctx w (or_intror Hrow) Hnot
                   (Hf 3%nat)).
        eexists. split; [reflexivity | discriminate].
      * rewrite (handler_scores um sid uid ctx w (c :: o) Hrow
                   ltac:(discriminate) Hnot (Hf 2%nat)).
        eexists. split; [reflexivity | apply score_text_not_apology].
      * rewrite (handler_saves um sid uid ctx w (or_introl Hrow) Hnot
                   (Hf 3%nat)).
        eexists. split; [reflexivity | discriminate].
Qed.

(** X17.  Two requests in a row: in a session without a stored text, a first
    non-empty utterance is saved and the next one is scored against it, both
    quoted as they were said (neither is a reset; no fault in the five
    statements). *)
Theorem saved_text_is_scored_next um1 um2 sid uid ctx w :
  rows w !! sid = None -> um1 <> [] ->
  lower um1 <> RESET_KEYWORD -> lower um2 <> RESET_KEYWORD ->
  fault_free 5 w = true ->
  fst (handler (complete_event um2 sid uid false) ctx
         (snd (handler (complete_event um1 sid uid false) ctx w))) =
    Returned (create_response
                (score_text (calculate_similarity um1 um2) um1 um2)
                RESET_BUTTON (Some sid) (Some uid)).
Proof.
  intros Hrow Hne Hnot1 Hnot2 Hf.
  rewrite (handler_saves um1 sid uid ctx w (or_introl Hrow) Hnot1
             (fault_free_fewer 3 5 w ltac:(lia) Hf)).
  cbn [snd].
  rewrite (handler_scores um2 sid uid ctx _ um1); try assumption.
  - reflexivity.
  - rewrite after_statements_rows. apply lookup_insert_eq.
  - apply (after_statements_fault_free 3 2). exact Hf.
Qed.

(** X18.  Two requests in a row: after a reset, whatever was stored, the
    next utterance that is not a reset is saved as the new original text (no
    fault in the five statements). *)
Theorem reset_then_next_is_saved um_reset um sid uid ctx w :
  lower um_reset = RESET_KEYWORD -> lower um <> RESET_KEYWORD ->
  fault_free 5 w = true ->
  let w1 := snd (handler (complete_event um_reset sid uid false) ctx w) in
  fst (handler (complete_event um sid uid false) ctx w1) =
    Returned (create_response TEXT_SAVED RESET_BUTTON (Some sid) (Some uid))
  /\ rows (snd (handler (complete_event um sid uid false) ctx w1)) !! sid =
     Some um.
Proof.
  intros Hreset Hnot Hf. cbv zeta.
  rewrite (handler_resets um_reset sid uid ctx w Hreset
             (fault_free_fewer 2 5 w ltac:(lia) Hf)).
  cbn [snd].
  rewrite (handler_saves um sid uid ctx _); try assumption.
  - split; [reflexivity|]. cbn [snd]. rewrite after_statements_rows.
    apply lookup_insert_eq.
  - left. rewrite after_statements_rows. apply lookup_delete_eq.
  - apply (after_statements_fault_free 2 3). exact Hf.
Qed.

End DialogueFlows.

(* ===================================================================== *)
(** ** Further properties of the text normaliser and the scorer *)
(* ===================================================================== *)

Section TextFacts.
Context {U : UnicodeData}.

(** X19.  The shape of a normalised text: words joined by single U+0020,
    each word non-empty and made of alphanumeric characters that are not
    white space.  So nothing but letters, digits and single separating
    spaces survives. *)
Theorem clean_text_words (s : pystr) :
  exists ws,
    clean_text s = join [SPACE] ws /\
    Forall (fun w => w <> [] /\
                     Forall (fun c => isalnum c = true /\ isspace c = false) w)
           ws.
Proof.
  exists (split (List.filter kept (lower s))). split; [reflexivity|].
  assert (H : Forall (word_of (fun c => True /\ kept c = true))
                     (split (List.filter kept (lower s)))).
  { apply split_from_words; [constructor|].
    apply filter_kept_Forall. apply Forall_forall. auto. }
  eapply Forall_impl; [exact H|]. intros w [Hne Hw]. split; [exact Hne|].
  eapply Forall_impl; [exact Hw|]. intros c [[_ Hk] Hs]. split; [|exact Hs].
  unfold kept in Hk. rewrite Hs, orb_false_r in Hk. exact Hk.
Qed.

Lemma split_from_all_space s :
  Forall (fun c => isspace c = true) s -> split_from [] s = [].
Proof.
  induction 1 as [|c s Hc Hs IH]; simpl; [reflexivity|]. now rewrite Hc.
Qed.

(** X20.  A text with no alphanumeric character (after lower-casing)
    normalises to the empty string: punctuation and white space alone leave
    nothing. *)
Theorem clean_text_without_alnum (s : pystr) :
  Forall (fun c => isalnum c = false) (lower s) -> clean_text s = [].
Proof.
  intros H. unfold clean_text, split.
  rewrite split_from_all_space; [reflexivity|].
  induction H as [|c l Hc Hl IH]; simpl; [constructor|].
  unfold kept at 1. rewrite Hc. simpl.
  destruct (isspace c) eqn:E; [constructor; assumption | assumption].
Qed.

Hypothesis laws : unicode_laws U.

(** A normalised text is made of words of settled, kept characters, and a
    text of that shape is its own normal form. *)
Lemma clean_text_settled_words s :
  Forall (word_of (fun c => settled c /\ kept c = true))
         (split (List.filter kept (lower s))).
Proof.
  apply split_from_words; [constructor|].
  apply filter_kept_Forall, (lower_from_settled laws).
Qed.

Lemma clean_text_of_words ws :
  Forall (word_of (fun c => settled c /\ kept c = true)) ws ->
  clean_text (join [SPACE] ws) = join [SPACE] ws.
Proof.
  intros Hws.
  assert (Ht : Forall (fun c => settled c /\ kept c = true)
                      (join [SPACE] ws)).
  { apply join_Forall.
    - split; [apply (settled_space laws)|]. unfold kept.
      rewrite (space_is_space U laws). apply orb_true_r.
    - eapply Forall_impl; [exact Hws|]. intros w [_ Hw].
      eapply Forall_impl; [exact Hw|]. now intros c [Hc _]. }
  unfold clean_text, lower.
  rewrite lower_from_fixed
    by (eapply Forall_impl; [exact Ht|]; now intros c [Hc _]).
  rewrite filter_kept_fixed
    by (eapply Forall_impl; [exact Ht|]; now intros c [_ Hc]).
  now rewrite (split_join laws (fun c => settled c /\ kept c = true)).
Qed.

(** X21.  Normalisation ignores case: lower-casing a text first does not
    change its normal form. *)
Theorem clean_text_ignores_case (s : pystr) :
  clean_text (lower s) = clean_text s.
Proof.
  unfold clean_text. f_equal. f_equal. f_equal. unfold lower at 1.
  apply lower_from_fixed, (lower_from_settled laws).
Qed.

(** X22.  The score sees the texts only through their normal forms: scoring
    two normalised texts gives the score of the texts they come from. *)
Theorem similarity_of_normalised (a b : pystr) :
  calculate_similarity (clean_text a) (clean_text b) =
  calculate_similarity a b.
Proof.
  unfold calculate_similarity.
  assert (H : forall s, clean_text (clean_text s) = clean_text s).
  { intros s. unfold clean_text at 2.
    apply clean_text_of_words, clean_text_settled_words. }
  now rewrite !H.
Qed.

End TextFacts.

(* ===================================================================== *)
(** ** The further properties at concrete sessions *)
(* ===================================================================== *)

Section ConcreteFurther.
Import Examples.
#[local] Existing Instance BasicUnicode.data.

Lemma first_utterance_is_saved_witness :
  rows (snd (handler (complete_event abc sid uid false) tt empty_store))
    !! sid = Some abc.
Proof.
  refine (proj2 (first_utterance_is_saved (U := BasicUnicode.data)
                   abc sid uid tt empty_store eq_refl _ eq_refl)).
  vm_compute. discriminate.
Defined.

Lemma recitation_is_scored_witness :
  rows (snd (handler (complete_event tide sid uid false) tt (store_with diet)))
  = rows (store_with diet).
Proof.
  refine (proj2 (recitation_is_scored (U := BasicUnicode.data)
                   tide sid uid tt (store_with diet) diet eq_refl _ _ eq_refl));
    vm_compute; discriminate.
Defined.

Lemma response_echoes_event_witness :
  session_id (session (create_response GREETING RESET_BUTTON
                                       (Some sid) (Some uid))) = Some sid.
Proof.
  refine (proj1 (response_echoes_event (U := BasicUnicode.data)
                   (complete_event abc sid uid true) tt empty_store
                   (create_response GREETING RESET_BUTTON
                                    (Some sid) (Some uid))
                   (World (Some ∅) [] [LogRequest uid sid abc])
                   sid uid eq_refl eq_refl eq_refl)).
Defined.

Lemma handler_keeps_other_sessions_witness :
  rows (snd (handler (complete_event RESET_KEYWORD uid uid false) tt
                     (store_with abc))) !! sid = Some abc.
Proof.
  refine (handler_keeps_other_sessions (U := BasicUnicode.data)
            (complete_event RESET_KEYWORD uid uid false) tt
            (store_with abc) sid _).
  vm_compute. discriminate.
Defined.

Lemma refused_connection_is_apologised_witness :
  fst (handler (complete_event abc sid uid false) tt
               (World (Some ∅) [ConnectFault] []))
  = Returned (create_response APOLOGY RESET_BUTTON (Some sid) (Some uid)).
Proof.
  rewrite (refused_connection_is_apologised (U := BasicUnicode.data)
             abc sid uid false tt (World (Some ∅) [ConnectFault] []) []
             eq_refl).
  reflexivity.
Defined.

Lemma failed_lookup_is_apologised_witness :
  fst (handler (complete_event abc sid uid false) tt
               (World (Some ∅) [NoFault; ExecuteFault] []))
  = Returned (create_response APOLOGY RESET_BUTTON (Some sid) (Some uid)).
Proof.
  refine (proj1 (failed_lookup_is_apologised (U := BasicUnicode.data)
                   abc sid uid tt
                   (World (Some ∅) [NoFault; ExecuteFault] [])
                   ExecuteFault [] eq_refl _ _)).
  - discriminate.
  - vm_compute. discriminate.
Defined.

Lemma no_fault_no_apology_witness :
  exists r,
    fst (handler (complete_event abc sid uid false) tt (World None [] []))
    = Returned r /\ text (response r) <> APOLOGY.
Proof.
  exact (no_fault_no_apology (U := BasicUnicode.data)
           abc sid uid false tt (World None [] []) eq_refl).
Defined.

Lemma saved_text_is_scored_next_witness :
  fst (handler (complete_event diet sid uid false) tt
         (snd (handler (complete_event tide sid uid false) tt empty_store)))
  = Returned (create_response
                (score_text (calculate_similarity tide diet) tide diet)
                RESET_BUTTON (Some sid) (Some uid)).
Proof.
  refine (saved_text_is_scored_next (U := BasicUnicode.data)
            tide diet sid uid tt empty_store eq_refl _ _ _ eq_refl);
    vm_compute; discriminate.
Defined.

Lemma reset_then_next_is_saved_witness :
  rows (snd (handler (complete_event abc sid uid false) tt
               (snd (handler (complete_event reset_button_label sid uid false)
                             tt (store_with diet))))) !! sid = Some abc.
Proof.
  refine (proj2 (reset_then_next_is_saved (U := BasicUnicode.data)
                   reset_button_label abc sid uid tt (store_with diet)
                   _ _ eq_refl)).
  - vm_compute. reflexivity.
  - vm_compute. discriminate.
Defined.

Lemma clean_text_without_alnum_witness :
  clean_text (lit "?! ... ") = [].
Proof.
  apply (clean_text_without_alnum (U := BasicUnicode.data)).
  vm_compute. repeat constructor.
Defined.

Lemma clean_text_ignores_case_witness :
  clean_text (lower hello) = clean_text hello.
Proof. apply (clean_text_ignores_case basic_unicode_laws hello). Defined.

Lemma similarity_of_normalised_witness :
  calculate_similarity (clean_text hello) (clean_text reset_with_stop) =
  calculate_similarity hello reset_with_stop.
Proof.
  apply (similarity_of_normalised basic_unicode_laws hello reset_with_stop).
Defined.

End ConcreteFurther.
